(** * fastmcp-mysql: the query admission and execution pipeline

    A shallow embedding of [src/fastmcp_mysql/tools/query.py]
    ([QueryValidator], [QueryExecutor], [format_query_result]) together
    with the part of Python's [str] and [re] behaviour those functions
    rely on, and the properties of the pipeline proved over it.

    Layout: Part I holds every definition, Parts II and III every lemma. *)

From Stdlib Require Import NArith ZArith List String Ascii Bool Lia.
From Stdlib Require Import DecimalString.
From stdpp Require Import base option list gmap strings.

Set Warnings "-register-all".
Open Scope N_scope.

(* ===================================================================== *)
(** * Part I.  Definitions                                                *)
(* ===================================================================== *)

(** ** Python text

    A Python [str] is a sequence of Unicode code points.  A code point is
    an [N]; a text is a [list N].  [u] reads an ASCII literal of the
    source as such a text. *)

Abbreviation pystr := (list N).

Definition u (s : string) : pystr :=
  map N_of_ascii (list_ascii_of_string s).

(** [Py_UNICODE_ISSPACE]: the code points that [str.strip()] removes and
    that [\s] matches in a [str] pattern.  Below 128 these are TAB..CR,
    FS..US and SPACE; above, the code points of bidirectional type WS, B
    or S. *)
Definition is_space (c : N) : bool :=
  ((9 <=? c) && (c <=? 13)) || ((28 <=? c) && (c <=? 32))
  || (c =? 0x85) || (c =? 0xA0) || (c =? 0x1680)
  || ((0x2000 <=? c) && (c <=? 0x200A))
  || (c =? 0x2028) || (c =? 0x2029) || (c =? 0x202F)
  || (c =? 0x205F) || (c =? 0x3000).

(** [str.lstrip()], [str.rstrip()] and [str.strip()] with no argument. *)
Fixpoint lstrip (s : pystr) : pystr :=
  match s with
  | c :: s' => if is_space c then lstrip s' else s
  | [] => []
  end.

Definition rstrip (s : pystr) : pystr := rev (lstrip (rev s)).

Definition strip (s : pystr) : pystr := rstrip (lstrip s).

(** Case folding as [re.IGNORECASE] sees it for an ASCII letter of a
    pattern.  The [sre] engine lowers the subject character with the
    simple lower-case mapping and compares it with the lowered pattern
    letter or one of its equivalents in [_ignorecase_fixes].  Four code
    points outside ASCII land on an ASCII letter that way: U+0130 and
    U+0131 on [i], U+017F on [s], U+212A on [k]. *)
Definition ascii_lower (c : N) : N :=
  if (65 <=? c) && (c <=? 90) then c + 32 else c.

Definition casefold (c : N) : N :=
  if c =? 0x130 then 0x69
  else if c =? 0x131 then 0x69
  else if c =? 0x17F then 0x73
  else if c =? 0x212A then 0x6B
  else ascii_lower c.

(** ** Regular expressions ([re])

    The patterns of the source use literals, [\s], [\S], [.], sequence,
    alternation, [*], [+] and [?].  [pattern.match(s)] succeeds when some
    prefix of [s] is in the language of the pattern, [pattern.search(s)]
    when some factor is; the engine backtracks exhaustively, so greedy and
    lazy quantifiers accept the same subjects, and groups only record
    positions.  A leading [^] is implied by [match]. *)

Module Re.

Inductive cclass : Type :=
| Lit (c : N)        (* a literal character, case-sensitive *)
| LitI (c : N)       (* an ASCII letter under re.IGNORECASE *)
| Space              (* \s *)
| NotSpace           (* \S *)
| Dot.               (* .  without re.DOTALL: anything but a newline *)

Definition mem (k : cclass) (c : N) : bool :=
  match k with
  | Lit a => c =? a
  | LitI a => casefold c =? ascii_lower a
  | Space => is_space c
  | NotSpace => negb (is_space c)
  | Dot => negb (c =? 10)
  end.

Inductive regex : Type :=
| None_
| Eps
| Chr (k : cclass)
| Seq (r1 r2 : regex)
| Alt (r1 r2 : regex)
| Star (r : regex).

Definition Plus (r : regex) : regex := Seq r (Star r).
Definition Opt (r : regex) : regex := Alt r Eps.

(** A keyword of the pattern under [re.IGNORECASE]. *)
Fixpoint word_of (cs : pystr) : regex :=
  match cs with
  | [] => Eps
  | c :: cs' => Seq (Chr (LitI c)) (word_of cs')
  end.

Definition Word (s : string) : regex := word_of (u s).

(** The language of a pattern. *)
Inductive lang : regex -> pystr -> Prop :=
| lang_eps : lang Eps []
| lang_chr k c : mem k c = true -> lang (Chr k) [c]
| lang_seq r1 r2 s1 s2 :
    lang r1 s1 -> lang r2 s2 -> lang (Seq r1 r2) (s1 ++ s2)
| lang_alt_l r1 r2 s : lang r1 s -> lang (Alt r1 r2) s
| lang_alt_r r1 r2 s : lang r2 s -> lang (Alt r1 r2) s
| lang_star_nil r : lang (Star r) []
| lang_star_app r s1 s2 :
    lang r s1 -> lang (Star r) s2 -> lang (Star r) (s1 ++ s2).

(** The matcher, by derivatives. *)
Fixpoint nullable (r : regex) : bool :=
  match r with
  | None_ => false
  | Eps => true
  | Chr _ => false
  | Seq r1 r2 => nullable r1 && nullable r2
  | Alt r1 r2 => nullable r1 || nullable r2
  | Star _ => true
  end.

Fixpoint deriv (c : N) (r : regex) : regex :=
  match r with
  | None_ => None_
  | Eps => None_
  | Chr k => if mem k c then Eps else None_
  | Seq r1 r2 =>
      if nullable r1
      then Alt (Seq (deriv c r1) r2) (deriv c r2)
      else Seq (deriv c r1) r2
  | Alt r1 r2 => Alt (deriv c r1) (deriv c r2)
  | Star r1 => Seq (deriv c r1) (Star r1)
  end.

(** [pattern.match(s) is not None] *)
Fixpoint match_ (r : regex) (s : pystr) : bool :=
  nullable r ||
  match s with
  | [] => false
  | c :: s' => match_ (deriv c r) s'
  end.

(** [pattern.search(s) is not None] *)
Fixpoint search (r : regex) (s : pystr) : bool :=
  match_ r s ||
  match s with
  | [] => false
  | _ :: s' => search r s'
  end.

End Re.

(** ** [class QueryType(Enum)] *)

Inductive QueryType : Type :=
| SELECT | INSERT | UPDATE | DELETE | DDL | OTHER.

#[global] Instance QueryType_eq_dec : EqDecision QueryType.
Proof. solve_decision. Defined.

(** [QueryType.value] *)
Definition QueryType_value (t : QueryType) : pystr :=
  match t with
  | SELECT => u "SELECT"
  | INSERT => u "INSERT"
  | UPDATE => u "UPDATE"
  | DELETE => u "DELETE"
  | DDL => u "DDL"
  | OTHER => u "OTHER"
  end.

(** ** [class QueryValidator] *)

Record QueryValidator : Type := {
  allow_insert : bool;
  allow_update : bool;
  allow_delete : bool
}.

Import Re.

(** [r'^\s*(WITH\s+.*?\s+)?SELECT\s+'] *)
Definition pattern_SELECT : regex :=
  Seq (Star (Chr Space))
   (Seq (Opt (Seq (Word "WITH")
               (Seq (Plus (Chr Space))
                 (Seq (Star (Chr Dot)) (Plus (Chr Space))))))
     (Seq (Word "SELECT") (Plus (Chr Space)))).

(** [r'^\s*INSERT\s+'], [r'^\s*UPDATE\s+'], [r'^\s*DELETE\s+'] *)
Definition pattern_kw (kw : string) : regex :=
  Seq (Star (Chr Space)) (Seq (Word kw) (Plus (Chr Space))).

Definition pattern_INSERT : regex := pattern_kw "INSERT".
Definition pattern_UPDATE : regex := pattern_kw "UPDATE".
Definition pattern_DELETE : regex := pattern_kw "DELETE".

(** [r'^\s*(CREATE|DROP|ALTER|TRUNCATE|RENAME)\s+'] *)
Definition pattern_DDL : regex :=
  Seq (Star (Chr Space))
   (Seq (Alt (Word "CREATE")
          (Alt (Word "DROP")
            (Alt (Word "ALTER")
              (Alt (Word "TRUNCATE") (Word "RENAME")))))
     (Plus (Chr Space))).

(** [self.patterns]: a dict, iterated in insertion order. *)
Definition patterns : list (QueryType * regex) :=
  [ (SELECT, pattern_SELECT);
    (INSERT, pattern_INSERT);
    (UPDATE, pattern_UPDATE);
    (DELETE, pattern_DELETE);
    (DDL, pattern_DDL) ].

(** [self.multi_statement_pattern = re.compile(r';\s*\S', re.MULTILINE)];
    the pattern has no anchor, so [re.MULTILINE] changes nothing. *)
Definition multi_statement_pattern : regex :=
  Seq (Chr (Lit 59)) (Seq (Star (Chr Space)) (Chr NotSpace)).

(** The loop of [get_query_type] over [self.patterns.items()]. *)
Fixpoint first_match (ps : list (QueryType * regex)) (query : pystr)
  : QueryType :=
  match ps with
  | [] => OTHER
  | (query_type, pattern) :: ps' =>
      if match_ pattern query then query_type else first_match ps' query
  end.

Definition get_query_type (query : pystr) : QueryType :=
  let query := strip query in
  first_match patterns query.

(** An exception object: an instance of [Exception], which is what the
    [except Exception] clause of [execute] catches; [str(e)] is its text.
    Cancellation and interrupts, which derive from [BaseException] alone,
    are not modelled. *)
Record exn : Type := {
  exn_class : string;    (* the exception class *)
  exn_text : pystr       (* str(e) *)
}.

Definition ValueError (message : pystr) : exn :=
  {| exn_class := "ValueError"; exn_text := message |}.

(** [validate_query] raises [ValueError(message)] or returns [None]. *)
Definition validate_query
    (self : QueryValidator) (query : pystr) (allow_write : bool)
  : exn + unit :=
  (* Check for multiple statements *)
  if search multi_statement_pattern query then
    inl (ValueError (u "Multiple statements detected in query"))
  else
    let query_type := get_query_type query in
    (* DDL is never allowed *)
    if bool_decide (query_type = DDL) then
      inl (ValueError (u "DDL operations are not allowed"))
    (* SELECT and OTHER queries are always allowed *)
    else if bool_decide (query_type = SELECT \/ query_type = OTHER) then
      inr tt
    (* Check write permissions *)
    else if negb allow_write then
      inl (ValueError
             (QueryType_value query_type
                ++ u " operations require write permission"))
    (* Check specific write permissions *)
    else if bool_decide (query_type = INSERT) && negb (allow_insert self) then
      inl (ValueError (u "INSERT operations are not allowed"))
    else if bool_decide (query_type = UPDATE) && negb (allow_update self) then
      inl (ValueError (u "UPDATE operations are not allowed"))
    else if bool_decide (query_type = DELETE) && negb (allow_delete self) then
      inl (ValueError (u "DELETE operations are not allowed"))
    else
      inr tt.

(** ** Python values and dicts

    The values that travel through the executor: what the connection
    manager returns ([Any]: rows or a count), the parameters, and the
    dicts with literal keys built by [execute] and [format_query_result]. *)

Inductive pyval : Type :=
| PNone
| PBool (b : bool)
| PInt (z : Z)
| PStr (s : pystr)
| PList (l : list pyval)
| PTuple (l : list pyval)
| PDict (d : gmap string pyval).

Abbreviation dict := (gmap string pyval).

(** [len(v)] where [v] is a list. *)
Definition PLen (l : list pyval) : pyval := PInt (Z.of_nat (length l)).

(** Truth value of an object, as [if v:] tests it. *)
Definition truthy (v : pyval) : bool :=
  match v with
  | PNone => false
  | PBool b => b
  | PInt z => negb (z =? 0)%Z
  | PStr [] => false
  | PStr _ => true
  | PList [] => false
  | PList _ => true
  | PTuple [] => false
  | PTuple _ => true
  | PDict d => negb (bool_decide (d = ∅))
  end.

(** [d[key]]: raises [KeyError(key)] when the key is absent. *)
Definition KeyError (key : string) : exn :=
  {| exn_class := "KeyError"; exn_text := u "'" ++ u key ++ u "'" |}.

Definition getitem (d : gmap string pyval) (key : string) : exn + pyval :=
  match d !! key with
  | Some v => inr v
  | None => inl (KeyError key)
  end.

(** ** Effects of the executor

    [execute] awaits the connection manager and writes to the logger.
    A computation is a tree of those two requests; [run] answers them
    with a connection manager over some world [W] and records them. *)

Inductive eff (A : Type) : Type :=
| Ret (a : A)
| Execute (query : pystr) (params : pyval) (k : exn + pyval -> eff A)
    (* await self.connection_manager.execute(query, params) *)
| LogError (message : pystr) (query : pystr) (k : eff A).
    (* logger.error(message, extra={"query": query}) *)

Arguments Ret {A} a.
Arguments Execute {A} query params k.
Arguments LogError {A} message query k.

Inductive event : Type :=
| EvExecute (query : pystr) (params : pyval)
| EvLogError (message : pystr) (query : pystr).

(** The collaborator behind [self.connection_manager]: it returns a value
    or raises, and may change the world. *)
Definition connection (W : Type) : Type :=
  pystr -> pyval -> W -> (exn + pyval) * W.

Fixpoint run {W A : Type} (conn : connection W) (m : eff A) (w : W)
  : A * W * list event :=
  match m with
  | Ret a => (a, w, [])
  | Execute query params k =>
      let '(r, w1) := conn query params w in
      let '(a, w2, tr) := run conn (k r) w1 in
      (a, w2, EvExecute query params :: tr)
  | LogError message query k =>
      let '(a, w1, tr) := run conn k w in
      (a, w1, EvLogError message query :: tr)
  end.

Definition result_of {W A : Type} (x : A * W * list event) : A := x.1.1.
Definition trace_of {W A : Type} (x : A * W * list event) : list event := x.2.

Definition is_EvExecute (e : event) : bool :=
  match e with EvExecute _ _ => true | EvLogError _ _ => false end.

(** The calls made to the connection manager during a run. *)
Definition downstream_calls (tr : list event) : list event :=
  List.filter is_EvExecute tr.

(** ** [class QueryExecutor]

    [self.connection_manager] is the interpretation of [Execute] given to
    [run]; the object itself keeps the validator. *)

Record QueryExecutor : Type := {
  validator : QueryValidator
}.

(** [if isinstance(params, list): params = tuple(params)] *)
Definition as_tuple (params : pyval) : pyval :=
  match params with
  | PList l => PTuple l
  | _ => params
  end.

(** [_add_database_prefix] *)
Definition _add_database_prefix
    (self : QueryExecutor) (query : pystr) (database : pystr) : pystr :=
  (* For now, just return the original query *)
  query.

(** The [except Exception as e] clause of [execute]; [query] is the local
    variable as it stands when the exception arrives. *)
Definition execute_except (query : pystr) (e : exn) : eff (exn + dict) :=
  LogError (u "Query execution failed: " ++ exn_text e) query
    (Ret (inr ({[ "success" := PBool false;
                  "error" := PStr (exn_text e);   (* str(e) *)
                  "data" := PNone;
                  "rows_affected" := PNone ]} : dict))).

(** [async def execute(self, query, params=None, database=None)].
    The result type leaves room for an exception that escapes. *)
Definition execute
    (self : QueryExecutor) (query : pystr) (params : pyval)
    (database : option pystr) : eff (exn + dict) :=
  (* try: *)
  match validate_query (validator self) query true with
  | inl e => execute_except query e
  | inr _ =>
      (* Convert params to tuple if it's a list *)
      let params := as_tuple params in
      (* Add database prefix if specified; [if database:] is false for
         None and for the empty string *)
      let query :=
        match database with
        | Some (c :: db) => _add_database_prefix self query (c :: db)
        | _ => query
        end in
      (* Execute query *)
      Execute query params (fun r =>
        match r with
        | inl e => execute_except query e
        | inr result =>
            (* Format response based on query type *)
            let query_type := get_query_type query in
            if bool_decide (query_type = SELECT) then
              Ret (inr ({[ "success" := PBool true;
                           "data" := result;
                           "rows_affected" := PNone ]} : dict))
            else
              Ret (inr ({[ "success" := PBool true;
                           "data" := PNone;
                           "rows_affected" := result ]} : dict))
        end)
  end.

(** [format_query_result] *)
Definition format_query_result (result : dict) : exn + dict :=
  match getitem result "success" with
  | inl e => inl e
  | inr success =>
      if truthy success then
        let formatted : dict :=
          {[ "success" := PBool true;
             "message" := PStr (u "Query executed successfully") ]} in
        (* if result["data"] is not None: ... else: ... *)
        match getitem result "data" with
        | inl e => inl e
        | inr PNone =>
            (* Write query result *)
            match getitem result "rows_affected" with
            | inl e => inl e
            | inr rows_affected =>
                inr (<[ "metadata" :=
                          PDict {[ "rows_affected" := rows_affected;
                                   "query_type" := PStr (u "WRITE") ]} ]>
                       (<[ "data" := PNone ]> formatted))
            end
        | inr data =>
            (* SELECT query result *)
            let row_count :=
              match data with PList l => PLen l | _ => PInt 0 end in
            inr (<[ "metadata" :=
                      PDict {[ "row_count" := row_count;
                               "query_type" := PStr (u "SELECT") ]} ]>
                   (<[ "data" := data ]> formatted))
        end
      else
        match getitem result "error" with
        | inl e => inl e
        | inr error =>
            inr ({[ "success" := PBool false;
                    "error" := error;
                    "message" := PStr (u "Query execution failed") ]} : dict)
        end
  end.

(** ** The admission limiter

    The repository declares the limiter only as an abstract interface
    ([security/interfaces/rate_limiter.py]) and exercises it in
    [tests/security/test_rate_limiting.py] against a stand-in whose
    [check_rate_limit] answers [(True, "OK")] whatever the history; no
    implementation is part of the sources. *)

Module AdmissionLimiter.

Open Scope Z_scope.

(** An identity is an opaque string; no identity is a valid key. *)
Abbreviation Identity := (option string).

(** Modelled from the spec: the configured limits of section 4.4 (maximum
    per minute and per hour, concurrent capacity, cooldown duration),
    which the missing limiter class would hold. *)
Record Config : Type := {
  max_per_minute : nat;
  max_per_hour : nat;
  max_concurrent : nat;
  cooldown_seconds : Z
}.

(** Modelled from the spec: the per-identity [LimiterState] of section 3
    (minute-window and hour-window request timestamps, concurrent-slot
    count, cooldown expiry, absent when not in cooldown); the limiter
    class that would hold it is missing from the sources. *)
Record LimiterState : Type := {
  minute_requests : list Z;
  hour_requests : list Z;
  concurrent_slots : nat;
  cooldown_until : option Z
}.

(** Modelled from the spec: the state created lazily on the first request
    of an identity (section 3), missing from the sources with the limiter
    class. *)
Definition fresh : LimiterState :=
  {| minute_requests := []; hour_requests := [];
     concurrent_slots := 0; cooldown_until := None |}.

(** Modelled from the spec: the sliding window of section 4.4 keeps
    exact timestamps and purges, on each check, the entries older than
    the horizon; the implementation is missing from the sources. *)
Definition purge (horizon now : Z) (ts : list Z) : list Z :=
  filter (fun t => now - horizon < t) ts.

(** Modelled from the spec: the cooldown test of section 4.4 (current
    time before the cooldown expiry), missing from the sources with the
    limiter class. *)
Definition in_cooldown (now : Z) (st : LimiterState) : option Z :=
  match cooldown_until st with
  | Some expiry => if bool_decide (now < expiry) then Some expiry else None
  | None => None
  end.

(** Modelled from the spec: a window denial sets the cooldown expiry to
    now plus the cooldown duration (section 4.4); the implementation is
    missing from the sources. *)
Definition limited (cfg : Config) (now : Z) (minute hour : list Z)
    (st : LimiterState) : LimiterState :=
  {| minute_requests := minute; hour_requests := hour;
     concurrent_slots := concurrent_slots st;
     cooldown_until := Some (now + cooldown_seconds cfg) |}.

(** Modelled from the spec: [checkAndRecord] of section 4.4 on the state
    of one identity, the implementation being missing from the sources.
    In order: cooldown (deny, retry after the remaining seconds); the
    minute window (deny when the count of timestamps within the trailing
    60 seconds reaches the configured maximum, and set the cooldown
    expiry to now plus the cooldown duration); the hour window (the same
    at 3600 seconds); otherwise allow and record the current timestamp
    into both windows.  A window denial carries the time to the expiry
    it has just set as its retry-after (section 8 asks for a non-null
    one). *)
Definition check_state (cfg : Config) (now : Z) (st : LimiterState)
  : (bool * option Z) * LimiterState :=
  match in_cooldown now st with
  | Some expiry => ((false, Some (expiry - now)), st)
  | None =>
      let minute := purge 60 now (minute_requests st) in
      let hour := purge 3600 now (hour_requests st) in
      if bool_decide (max_per_minute cfg <= length minute)%nat then
        ((false, Some (cooldown_seconds cfg)), limited cfg now minute hour st)
      else if bool_decide (max_per_hour cfg <= length hour)%nat then
        ((false, Some (cooldown_seconds cfg)), limited cfg now minute hour st)
      else
        ((true, None),
         {| minute_requests := now :: minute;
            hour_requests := now :: hour;
            concurrent_slots := concurrent_slots st;
            cooldown_until := None |})
  end.

(** Modelled from the spec: [checkAndRecord(identity)] over the table of
    per-identity states, the state of a new identity being created on
    its first request; the implementation is missing from the sources. *)
Definition checkAndRecord (cfg : Config) (identity : Identity) (now : Z)
    (table : gmap Identity LimiterState)
  : (bool * option Z) * gmap Identity LimiterState :=
  let st := default fresh (table !! identity) in
  let '(answer, st') := check_state cfg now st in
  (answer, <[identity := st']> table).

(** A history of checks [(identity, time)], oldest first. *)
Fixpoint run_checks (cfg : Config) (calls : list (Identity * Z))
    (table : gmap Identity LimiterState) : gmap Identity LimiterState :=
  match calls with
  | [] => table
  | (identity, now) :: calls' =>
      run_checks cfg calls' (checkAndRecord cfg identity now table).2
  end.

(** The checks of one identity in a history. *)
Definition checks_of (identity : Identity) (calls : list (Identity * Z))
  : list Z :=
  (filter (fun c => c.1 = identity) calls).*2.

(** The state of one identity after its checks at the given times. *)
Fixpoint run_state (cfg : Config) (times : list Z) (st : LimiterState)
  : LimiterState :=
  match times with
  | [] => st
  | now :: times' => run_state cfg times' (check_state cfg now st).2
  end.

(** The times, oldest first, of the checks of one identity that a history
    started on [table] admitted. *)
Fixpoint admitted_times (cfg : Config) (identity : Identity)
    (calls : list (Identity * Z)) (table : gmap Identity LimiterState)
  : list Z :=
  match calls with
  | [] => []
  | (i, now) :: calls' =>
      let r := checkAndRecord cfg i now table in
      (if bool_decide (i = identity) && r.1.1 then [now] else [])
      ++ admitted_times cfg identity calls' r.2
  end.

(** The times of a list that fall in the 60 seconds that end at [now]. *)
Definition in_last_minute (now : Z) (ts : list Z) : list Z :=
  filter (fun t => now - 60 < t) ts.

(** The limits of the examples: two checks a minute, and a cooldown of
    the given length. *)
Definition two_a_minute (cooldown : Z) : Config :=
  {| max_per_minute := 2; max_per_hour := 100; max_concurrent := 3;
     cooldown_seconds := cooldown |}.

End AdmissionLimiter.

(** ** The classifier in the words of the specification

    Section 4.1 describes the category by the shape of the trimmed text.
    [starts_kw kw t]: [t] begins with the keyword [kw], in any letter
    case, followed by a whitespace character.  [with_select t]: [t] begins
    with WITH, whitespace, a clause on one line, whitespace, and then
    SELECT as above. *)

Definition ci_eq (kw : pystr) (s : pystr) : Prop :=
  Forall2 (fun k c => mem (LitI k) c = true) kw s.

Definition starts_kw (kw : string) (t : pystr) : Prop :=
  exists k w rest,
    t = k ++ w :: rest /\ ci_eq (u kw) k /\ is_space w = true.

Definition with_select (t : pystr) : Prop :=
  exists k sp1 clause sp2 rest,
    t = k ++ sp1 ++ clause ++ sp2 ++ rest
    /\ ci_eq (u "WITH") k
    /\ sp1 <> [] /\ Forall (fun c => is_space c = true) sp1
    /\ Forall (fun c => c <> 10) clause
    /\ sp2 <> [] /\ Forall (fun c => is_space c = true) sp2
    /\ starts_kw "SELECT" rest.

Definition ddl_keywords : list string :=
  ["CREATE"; "DROP"; "ALTER"; "TRUNCATE"; "RENAME"]%string.

Definition shape (c : QueryType) (t : pystr) : Prop :=
  match c with
  | SELECT => with_select t \/ starts_kw "SELECT" t
  | INSERT => starts_kw "INSERT" t
  | UPDATE => starts_kw "UPDATE" t
  | DELETE => starts_kw "DELETE" t
  | DDL => exists kw, In kw ddl_keywords /\ starts_kw kw t
  | OTHER => False
  end.

(** The category in the order of section 4.1: the first shape, in the
    order SELECT, INSERT, UPDATE, DELETE, DDL, that the trimmed text has;
    OTHER when it has none. *)
Inductive classify : pystr -> QueryType -> Prop :=
| classify_SELECT t : shape SELECT t -> classify t SELECT
| classify_INSERT t :
    ~ shape SELECT t -> shape INSERT t -> classify t INSERT
| classify_UPDATE t :
    ~ shape SELECT t -> ~ shape INSERT t -> shape UPDATE t ->
    classify t UPDATE
| classify_DELETE t :
    ~ shape SELECT t -> ~ shape INSERT t -> ~ shape UPDATE t ->
    shape DELETE t -> classify t DELETE
| classify_DDL t :
    ~ shape SELECT t -> ~ shape INSERT t -> ~ shape UPDATE t ->
    ~ shape DELETE t -> shape DDL t -> classify t DDL
| classify_OTHER t :
    ~ shape SELECT t -> ~ shape INSERT t -> ~ shape UPDATE t ->
    ~ shape DELETE t -> ~ shape DDL t -> classify t OTHER.

(** ** The classifier, character by character

    The same shapes once more, over code points alone: which characters
    are whitespace, which characters spell a letter of a keyword, and
    where in the query the text lies that the patterns see.  Nothing here
    refers to [strip], [is_space], [casefold] or the patterns. *)

(** The whitespace characters: TAB to CR, FS to SPACE, U+0085, U+00A0,
    U+1680, U+2000 to U+200A, U+2028, U+2029, U+202F, U+205F, U+3000. *)
Definition whitespace (c : N) : Prop :=
  9 <= c <= 13 \/ 28 <= c <= 32 \/ c = 0x85 \/ c = 0xA0 \/ c = 0x1680
  \/ 0x2000 <= c <= 0x200A \/ c = 0x2028 \/ c = 0x2029 \/ c = 0x202F
  \/ c = 0x205F \/ c = 0x3000.

(** The characters that stand for the upper-case letter [k] of a keyword:
    [k] itself, its lower case, and besides, for I, U+0130 and U+0131, for
    S, U+017F, for K, U+212A. *)
Definition letter_match (k c : N) : Prop :=
  c = k \/ c = k + 32
  \/ (k = 73 /\ (c = 0x130 \/ c = 0x131))
  \/ (k = 83 /\ c = 0x17F)
  \/ (k = 75 /\ c = 0x212A).

Definition spells (kw : string) (s : pystr) : Prop :=
  Forall2 letter_match (u kw) s.

(** A text with no whitespace character at either end. *)
Definition trimmed (t : pystr) : Prop :=
  (forall a s, t = a :: s -> ~ whitespace a)
  /\ (forall s c, t = s ++ [c] -> ~ whitespace c).

(** The keyword, then one whitespace character, then anything. *)
Definition keyword_then_space (kw : string) (t : pystr) : Prop :=
  exists k w rest, t = k ++ w :: rest /\ spells kw k /\ whitespace w.

(** WITH, whitespace, any text without a line feed, whitespace, and then
    SELECT and a whitespace character. *)
Definition with_then_select (t : pystr) : Prop :=
  exists k sp1 clause sp2 rest,
    t = k ++ sp1 ++ clause ++ sp2 ++ rest
    /\ spells "WITH" k
    /\ sp1 <> [] /\ Forall whitespace sp1
    /\ Forall (fun c => c <> 10) clause
    /\ sp2 <> [] /\ Forall whitespace sp2
    /\ keyword_then_space "SELECT" rest.

Definition text_shape (c : QueryType) (t : pystr) : Prop :=
  match c with
  | SELECT => with_then_select t \/ keyword_then_space "SELECT" t
  | INSERT => keyword_then_space "INSERT" t
  | UPDATE => keyword_then_space "UPDATE" t
  | DELETE => keyword_then_space "DELETE" t
  | DDL => exists kw, In kw ddl_keywords /\ keyword_then_space kw t
  | OTHER => False
  end.

(** The first category of the list whose shape the text has, OTHER when
    it has none of them. *)
Fixpoint first_shape (order : list QueryType) (t : pystr) (c : QueryType)
  : Prop :=
  match order with
  | [] => c = OTHER
  | x :: order' =>
      (text_shape x t /\ c = x)
      \/ (~ text_shape x t /\ first_shape order' t c)
  end.

Definition text_category (t : pystr) (c : QueryType) : Prop :=
  first_shape [SELECT; INSERT; UPDATE; DELETE; DDL] t c.

(** The multiple-statement signal of section 4.1: a semicolon followed,
    after optional whitespace, by a non-whitespace character. *)
Definition has_second_statement (query : pystr) : Prop :=
  exists before ws c after,
    query = before ++ 59 :: ws ++ c :: after
    /\ Forall (fun x => is_space x = true) ws
    /\ is_space c = false.

(** The messages of [validate_query], [execute] and friends. *)
Definition msg_multi : pystr := u "Multiple statements detected in query".
Definition msg_ddl : pystr := u "DDL operations are not allowed".

Definition executor_with (i up d : bool) : QueryExecutor :=
  {| validator :=
       {| allow_insert := i; allow_update := up; allow_delete := d |} |}.

Definition no_leading_space (t : pystr) : Prop :=
  match t with
  | c :: _ => is_space c = false
  | [] => True
  end.

(** The keywords the patterns look for. *)
Definition sql_keywords : list string :=
  ["WITH"; "SELECT"; "INSERT"; "UPDATE"; "DELETE";
   "CREATE"; "DROP"; "ALTER"; "TRUNCATE"; "RENAME"]%string.

(** The permission flag of a write category, and its update. *)
Definition flag_of (c : QueryType) (self : QueryValidator) : bool :=
  match c with
  | INSERT => allow_insert self
  | UPDATE => allow_update self
  | DELETE => allow_delete self
  | _ => true
  end.

Definition set_flag (c : QueryType) (b : bool) (self : QueryValidator)
  : QueryValidator :=
  match c with
  | INSERT => {| allow_insert := b; allow_update := allow_update self;
                 allow_delete := allow_delete self |}
  | UPDATE => {| allow_insert := allow_insert self; allow_update := b;
                 allow_delete := allow_delete self |}
  | DELETE => {| allow_insert := allow_insert self;
                 allow_update := allow_update self; allow_delete := b |}
  | _ => self
  end.

Definition is_write (c : QueryType) : Prop :=
  c = INSERT \/ c = UPDATE \/ c = DELETE.

(** The envelope [execute] returns from its [except] clause. *)
Definition error_envelope (text : pystr) : dict :=
  {[ "success" := PBool false;
     "error" := PStr text;
     "data" := PNone;
     "rows_affected" := PNone ]}.

(** Two connection managers for the examples: one whose [execute] raises
    an error with a given text, one that returns a given value. *)
Definition conn_raising (text : pystr) : connection unit :=
  fun _ _ w => (inl {| exn_class := "OperationalError"; exn_text := text |}, w).

Definition conn_returning (v : pyval) : connection unit :=
  fun _ _ w => (inr v, w).

(** ** The module global and [mysql_query]

    [tools/query.py] keeps the connection manager in the module global
    [_connection_manager], [None] until [set_connection_manager] is
    called.  A manager is known here by what its [execute] does. *)

Definition set_connection_manager {W : Type}
    (manager : option (connection W))
    (_connection_manager : option (connection W))
  : option (connection W) :=
  manager.

Definition get_connection_manager {W : Type}
    (_connection_manager : option (connection W))
  : option (connection W) :=
  _connection_manager.

(** [os.getenv(key, default)] over the environment of the process. *)
Definition getenv (environ : gmap string pystr) (key : string)
    (default_value : pystr) : pystr :=
  match environ !! key with
  | Some value => value
  | None => default_value
  end.

(** [value.lower() == "true"].  [str.lower()] maps character by character;
    the characters it sends to one of the letters t, r, u, e are those
    letters themselves in either ASCII case (U+212A goes to k and U+0130
    to two characters), so the comparison holds exactly when [value] is
    the literal up to ASCII case. *)
Definition lower_is_true (value : pystr) : bool :=
  bool_decide (map ascii_lower value = u "true").

(** The result of [mysql_query] when no connection manager is set. *)
Definition not_initialized : dict :=
  {[ "success" := PBool false;
     "error" := PStr (u "Connection not initialized");
     "message" := PStr (u "Query execution failed") ]}.

(** What a call of [mysql_query] does: the requests of the executor it
    runs, and the record its own [except] clause writes with
    [logger.error(f"Unexpected error in mysql_query: {e}")]. *)
Inductive tool_event : Type :=
| ToolExecutor (e : event)
| ToolLogError (message : pystr).

(** The validator [mysql_query] builds from the environment:
    [QueryValidator(allow_insert=os.getenv("MYSQL_ALLOW_INSERT",
    "false").lower() == "true", ...)]. *)
Definition env_validator (environ : gmap string pystr) : QueryValidator :=
  {| allow_insert :=
       lower_is_true (getenv environ "MYSQL_ALLOW_INSERT" (u "false"));
     allow_update :=
       lower_is_true (getenv environ "MYSQL_ALLOW_UPDATE" (u "false"));
     allow_delete :=
       lower_is_true (getenv environ "MYSQL_ALLOW_DELETE" (u "false")) |}.

(** The [try] block of [mysql_query].  [if not conn_manager] is the test
    for [None]: a connection manager object is true. *)
Definition mysql_query_try {W : Type}
    (_connection_manager : option (connection W))
    (environ : gmap string pystr)
    (query : pystr) (params : pyval) (database : option pystr) (w : W)
  : (exn + dict) * W * list event :=
  (* Get connection manager *)
  match get_connection_manager _connection_manager with
  | None => (inr not_initialized, w, [])
  | Some conn_manager =>
      (* Get validator from settings; for now from the environment *)
      let validator := env_validator environ in
      (* Create executor *)
      let executor := {| validator := validator |} in
      (* Execute query *)
      let '(result, w1, tr) :=
        run conn_manager (execute executor query params database) w in
      match result with
      | inl e => (inl e, w1, tr)
      | inr result =>
          (* Format and return result *)
          (format_query_result result, w1, tr)
      end
  end.

(** [async def mysql_query(query, params=None, database=None,
    context=None)]; [context] is not used. *)
Definition mysql_query {W : Type}
    (_connection_manager : option (connection W))
    (environ : gmap string pystr)
    (query : pystr) (params : pyval) (database : option pystr) (w : W)
  : (exn + dict) * W * list tool_event :=
  let '(r, w1, tr) :=
    mysql_query_try _connection_manager environ query params database w in
  match r with
  | inr formatted => (inr formatted, w1, map ToolExecutor tr)
  | inl e =>
      (* except Exception as e: *)
      (inr ({[ "success" := PBool false;
               "error" := PStr (exn_text e);
               "message" := PStr (u "Query execution failed") ]} : dict),
       w1,
       map ToolExecutor tr
         ++ [ToolLogError (u "Unexpected error in mysql_query: " ++ exn_text e)])
  end.

(** ** The server ([server.py])

    [create_server] registers a tool that makes sure of the connection
    and then calls [mysql_query].  [create_connection_manager] belongs to
    the connection module, which is not among the sources: it is the
    parameter [create], which returns a manager or raises. *)

Inductive server_event : Type :=
| SrvCreate                          (* await create_connection_manager(settings) *)
| SrvLogInfo (message : pystr)       (* logger.info *)
| SrvLogError (message : pystr)      (* logger.error *)
| SrvTool (e : tool_event).

Record server_state (W : Type) : Type := {
  _connection_initialized : bool;                 (* the nonlocal flag *)
  _connection_manager : option (connection W)     (* the global of tools.query *)
}.

Arguments _connection_initialized {W} _.
Arguments _connection_manager {W} _.

(** [async def setup_connection(settings)] *)
Definition setup_connection {W : Type}
    (create : W -> (exn + connection W) * W)
    (manager_global : option (connection W)) (w : W)
  : (exn + connection W) * option (connection W) * W * list server_event :=
  (* try: *)
  match create w with
  | (inr manager, w1) =>
      (inr manager,
       (* Set global connection manager for tools *)
       set_connection_manager (Some manager) manager_global,
       w1,
       [SrvCreate; SrvLogInfo (u "Database connection established")])
  | (inl e, w1) =>
      (* except Exception as e: ... raise *)
      (inl e, manager_global, w1,
       [SrvCreate;
        SrvLogError (u "Failed to establish database connection: "
                       ++ exn_text e)])
  end.

(** [async def ensure_connection()] *)
Definition ensure_connection {W : Type}
    (create : W -> (exn + connection W) * W)
    (st : server_state W) (w : W)
  : (exn + unit) * server_state W * W * list server_event :=
  if negb (_connection_initialized st) then
    match setup_connection create (_connection_manager st) w with
    | (inr _, g, w1, tr) =>
        (inr tt,
         {| _connection_initialized := true; _connection_manager := g |},
         w1, tr)
    | (inl e, g, w1, tr) =>
        (inl e,
         {| _connection_initialized := false; _connection_manager := g |},
         w1, tr)
    end
  else (inr tt, st, w, []).

(** The tool [mysql_query] registered by [create_server]. *)
Definition server_mysql_query {W : Type}
    (create : W -> (exn + connection W) * W)
    (environ : gmap string pystr)
    (st : server_state W)
    (query : pystr) (params : pyval) (database : option pystr) (w : W)
  : (exn + dict) * server_state W * W * list server_event :=
  (* Ensure connection is initialized *)
  match ensure_connection create st w with
  | (inl e, st1, w1, tr) => (inl e, st1, w1, tr)
  | (inr _, st1, w1, tr) =>
      let '(r, w2, tr') :=
        mysql_query (_connection_manager st1) environ query params database w1 in
      (r, st1, w2, tr ++ map SrvTool tr')
  end.

(** A series of tool calls, each with its query, parameters and
    database; the results come oldest first. *)
Fixpoint server_calls {W : Type}
    (create : W -> (exn + connection W) * W)
    (environ : gmap string pystr)
    (calls : list (pystr * pyval * option pystr))
    (st : server_state W) (w : W)
  : list (exn + dict) * server_state W * W * list server_event :=
  match calls with
  | [] => ([], st, w, [])
  | (query, params, database) :: calls' =>
      let '(r, st1, w1, tr) :=
        server_mysql_query create environ st query params database w in
      let '(rs, st2, w2, tr') := server_calls create environ calls' st1 w1 in
      (r :: rs, st2, w2, tr ++ tr')
  end.

Definition is_SrvCreate (e : server_event) : bool :=
  match e with SrvCreate => true | _ => false end.

(** ** Settings ([config.py]) *)

Module Config.

(** [class LogLevel(str, Enum)] *)
Inductive LogLevel : Type := DEBUG | INFO | WARNING | ERROR | CRITICAL.

Definition LogLevel_value (l : LogLevel) : pystr :=
  match l with
  | DEBUG => u "DEBUG"
  | INFO => u "INFO"
  | WARNING => u "WARNING"
  | ERROR => u "ERROR"
  | CRITICAL => u "CRITICAL"
  end.

(** [class Settings(BaseSettings)]: the fields. *)
Record Settings : Type := {
  host : pystr;
  port : Z;
  user : pystr;
  password : pystr;
  db : pystr;
  allow_insert : bool;
  allow_update : bool;
  allow_delete : bool;
  pool_size : Z;
  query_timeout : Z;
  cache_ttl : Z;
  log_level : LogLevel
}.

(** [str(n)] for an [int]: decimal digits, with a minus sign below zero. *)
Definition int_str (n : Z) : pystr :=
  u (DecimalString.NilZero.string_of_int (Z.to_int n)).

(** [self.model_dump()]: the fields by name; a [LogLevel] is a [str]. *)
Definition model_dump (self : Settings) : dict :=
  {[ "host" := PStr (host self);
     "port" := PInt (port self);
     "user" := PStr (user self);
     "password" := PStr (password self);
     "db" := PStr (db self);
     "allow_insert" := PBool (allow_insert self);
     "allow_update" := PBool (allow_update self);
     "allow_delete" := PBool (allow_delete self);
     "pool_size" := PInt (pool_size self);
     "query_timeout" := PInt (query_timeout self);
     "cache_ttl" := PInt (cache_ttl self);
     "log_level" := PStr (LogLevel_value (log_level self)) ]}.

(** [connection_string_safe] *)
Definition connection_string_safe (self : Settings) : pystr :=
  u "mysql://" ++ user self ++ u ":***@" ++ host self ++ u ":"
    ++ int_str (port self) ++ u "/" ++ db self.

(** [to_dict_safe] *)
Definition to_dict_safe (self : Settings) : dict :=
  let data := model_dump self in
  (* Mask sensitive fields *)
  if bool_decide (is_Some (data !! "password"))
  then <[ "password" := PStr (u "***") ]> data
  else data.

(** The same settings with another password. *)
Definition with_password (self : Settings) (pw : pystr) : Settings :=
  {| host := host self; port := port self; user := user self;
     password := pw; db := db self;
     allow_insert := allow_insert self; allow_update := allow_update self;
     allow_delete := allow_delete self; pool_size := pool_size self;
     query_timeout := query_timeout self; cache_ttl := cache_ttl self;
     log_level := log_level self |}.

End Config.

(** ** Helpers of the further properties *)

(** The upper-case counterpart of [ascii_lower]. *)
Definition ascii_upper (c : N) : N :=
  if (97 <=? c) && (c <=? 122) then c - 32 else c.

(** A pattern none of whose character classes tells [c] from [f c]. *)
Fixpoint blind (f : N -> N) (r : regex) : Prop :=
  match r with
  | Chr k => forall c, mem k (f c) = mem k c
  | Seq r1 r2 | Alt r1 r2 => blind f r1 /\ blind f r2
  | Star r1 => blind f r1
  | None_ | Eps => True
  end.

(** A change of characters that keeps whitespace, line breaks, semicolons
    and the letter each character folds to. *)
Definition case_only (f : N -> N) : Prop :=
  forall c,
    is_space (f c) = is_space c
    /\ casefold (f c) = casefold c
    /\ (f c =? 10) = (c =? 10)
    /\ (f c =? 59) = (c =? 59).

(** The messages [validate_query] can raise. *)
Definition validation_messages : list pystr :=
  [ u "Multiple statements detected in query";
    u "DDL operations are not allowed";
    u "INSERT operations require write permission";
    u "UPDATE operations require write permission";
    u "DELETE operations require write permission";
    u "INSERT operations are not allowed";
    u "UPDATE operations are not allowed";
    u "DELETE operations are not allowed" ].

(** One validator grants at least what another does. *)
Definition grants_le (v1 v2 : QueryValidator) : Prop :=
  (allow_insert v1 = true -> allow_insert v2 = true)
  /\ (allow_update v1 = true -> allow_update v2 = true)
  /\ (allow_delete v1 = true -> allow_delete v2 = true).

(** The letters, folded, with which the keywords of the patterns begin. *)
Definition keyword_initials : list N :=
  [119; 115; 105; 117; 100; 99; 97; 116; 114].

(** The characters with which a text of some shape can begin: the letters
    w, s, i, u, d, c, a, t, r in either case, and the three characters
    outside ASCII that stand for I and S: U+0130, U+0131, U+017F. *)
Definition keyword_first_characters : list N :=
  [87; 119; 83; 115; 73; 105; 85; 117; 68; 100; 67; 99; 65; 97; 84; 116;
   82; 114; 0x130; 0x131; 0x17F].

Definition is_EvLogError (e : event) : bool :=
  match e with EvLogError _ _ => true | EvExecute _ _ => false end.

(** The environment variable behind the flag of a write category. *)
Definition env_var_of (c : QueryType) : string :=
  match c with
  | INSERT => "MYSQL_ALLOW_INSERT"
  | UPDATE => "MYSQL_ALLOW_UPDATE"
  | _ => "MYSQL_ALLOW_DELETE"
  end.

(** The keys [format_query_result] reads are present: "success"; under a
    true success "data", and "rows_affected" when the data is None; under
    a false one "error". *)
Definition well_keyed (result : dict) : Prop :=
  exists success : pyval,
    result !! "success" = Some success
    /\ (truthy success = true ->
        exists data : pyval,
          result !! "data" = Some data
          /\ (data = PNone -> is_Some (result !! "rows_affected")))
    /\ (truthy success = false -> is_Some (result !! "error")).

Definition is_ToolLogError (e : tool_event) : bool :=
  match e with ToolLogError _ => true | ToolExecutor _ => false end.

(* ===================================================================== *)
(** * Part II.  Properties                                                *)
(* ===================================================================== *)

(** ** Text *)

Section TextFacts.

Implicit Types s t : pystr.

Lemma lstrip_app_space ws s :
  Forall (fun c => is_space c = true) ws -> lstrip (ws ++ s) = lstrip s.
Proof.
  induction 1 as [|c ws Hc _ IH]; simpl; [done|]. by rewrite Hc.
Qed.

Lemma lstrip_head s c t : lstrip s = c :: t -> is_space c = false.
Proof.
  induction s as [|a s IH]; simpl; [done|].
  destruct (is_space a) eqn:Ha; [done|]. by intros [= <- _].
Qed.

Lemma lstrip_suffix s : exists ws,
  s = ws ++ lstrip s /\ Forall (fun c => is_space c = true) ws.
Proof.
  induction s as [|a s (ws & Hs & Hws)]; simpl.
  - by exists [].
  - destruct (is_space a) eqn:Ha.
    + exists (a :: ws). split; [by rewrite <- app_comm_cons, <- Hs|].
      by constructor.
    + by exists [].
Qed.

Lemma lstrip_id s c t : s = c :: t -> is_space c = false -> lstrip s = s.
Proof. intros -> H. simpl. by rewrite H. Qed.

Lemma rstrip_prefix s : exists ws,
  s = rstrip s ++ ws /\ Forall (fun c => is_space c = true) ws.
Proof.
  unfold rstrip. destruct (lstrip_suffix (rev s)) as (ws & Hs & Hws).
  exists (rev ws). split.
  - rewrite <- rev_app_distr, <- Hs. by rewrite rev_involutive.
  - by apply Forall_rev.
Qed.

(** The first character of a stripped text is not whitespace. *)
Lemma rstrip_head s c t :
  is_space c = false -> s = c :: t -> exists t', rstrip s = c :: t'.
Proof.
  intros Hc ->. destruct (rstrip_prefix (c :: t)) as (ws & Hs & Hws).
  destruct (rstrip (c :: t)) as [|a r] eqn:Hr.
  - simpl in Hs. subst ws. apply Forall_cons in Hws as [Hws _]. congruence.
  - simpl in Hs. injection Hs as <- _. by exists r.
Qed.

Lemma strip_head s c t : strip s = c :: t -> is_space c = false.
Proof.
  unfold strip. intros H.
  destruct (lstrip s) as [|a r] eqn:Hl.
  - by compute in H.
  - pose proof (lstrip_head _ _ _ Hl) as Ha.
    destruct (rstrip_head (a :: r) a r Ha eq_refl) as (t' & Ht').
    rewrite Ht' in H. by injection H as <- _.
Qed.

Lemma strip_app_space ws s :
  Forall (fun c => is_space c = true) ws -> strip (ws ++ s) = strip s.
Proof. intros H. unfold strip. by rewrite lstrip_app_space. Qed.

(** The last character of a stripped text is not whitespace. *)
Lemma rstrip_last s t c : rstrip s = t ++ [c] -> is_space c = false.
Proof.
  unfold rstrip. intros H.
  apply (f_equal (@rev N)) in H. rewrite rev_involutive, rev_unit in H.
  by apply lstrip_head in H.
Qed.

Lemma strip_last s t c : strip s = t ++ [c] -> is_space c = false.
Proof. apply rstrip_last. Qed.

(** A text without whitespace is its own stripped form. *)
Lemma lstrip_no_space s :
  Forall (fun c => is_space c = false) s -> lstrip s = s.
Proof. destruct 1 as [|c s Hc _]; simpl; [done|]. by rewrite Hc. Qed.

Lemma strip_no_space s :
  Forall (fun c => is_space c = false) s -> strip s = s.
Proof.
  intros H. unfold strip, rstrip. rewrite (lstrip_no_space s H).
  rewrite lstrip_no_space; [apply rev_involutive|]. by apply Forall_rev.
Qed.

Lemma lstrip_all_space s :
  Forall (fun c => is_space c = true) s -> lstrip s = [].
Proof. intros H. rewrite <- (app_nil_r s). by rewrite lstrip_app_space. Qed.

Lemma rstrip_app_space s ws :
  Forall (fun c => is_space c = true) ws -> rstrip (s ++ ws) = rstrip s.
Proof.
  intros H. unfold rstrip. rewrite rev_app_distr, lstrip_app_space; [done|].
  by apply Forall_rev.
Qed.

(** [strip] removes the whitespace at the end as well. *)
Lemma strip_app_space_r s ws :
  Forall (fun c => is_space c = true) ws -> strip (s ++ ws) = strip s.
Proof.
  intros H. unfold strip. induction s as [|c s IH]; simpl.
  - by rewrite (lstrip_all_space ws H).
  - destruct (is_space c); [done|].
    by rewrite app_comm_cons, rstrip_app_space.
Qed.

End TextFacts.

(** ** Regular expressions: the matcher decides the language *)

Section RegexFacts.

Implicit Types (r : regex) (s : pystr) (c : N).

Lemma lang_None s : lang None_ s <-> False.
Proof. split; [inversion 1|done]. Qed.

Lemma lang_Eps s : lang Eps s <-> s = [].
Proof. split; [by inversion 1|intros ->; constructor]. Qed.

Lemma lang_Chr k s : lang (Chr k) s <-> exists c, s = [c] /\ mem k c = true.
Proof.
  split; [inversion 1; eauto|intros (c & -> & H); by constructor].
Qed.

Lemma lang_Seq r1 r2 s :
  lang (Seq r1 r2) s <->
  exists s1 s2, s = s1 ++ s2 /\ lang r1 s1 /\ lang r2 s2.
Proof.
  split; [inversion 1; eauto|intros (s1 & s2 & -> & H1 & H2); by constructor].
Qed.

Lemma lang_Alt r1 r2 s : lang (Alt r1 r2) s <-> lang r1 s \/ lang r2 s.
Proof.
  split; [inversion 1; eauto|intros [H|H]; by constructor].
Qed.

Lemma lang_Opt r s : lang (Opt r) s <-> lang r s \/ s = [].
Proof. unfold Opt. by rewrite lang_Alt, lang_Eps. Qed.

(** A non-empty member of a starred language starts with a non-empty
    member of the language. *)
Lemma lang_Star_cons r c s :
  lang (Star r) (c :: s) ->
  exists s1 s2, s = s1 ++ s2 /\ lang r (c :: s1) /\ lang (Star r) s2.
Proof.
  intros H. remember (Star r) as r' eqn:Hr. remember (c :: s) as s' eqn:Hs.
  revert Hr Hs.
  induction H as [| | | | | |r0 s1 s2 H1 _ H2 IH2]; try done.
  intros [= ->] Hs. destruct s1 as [|a s1]; simpl in Hs.
  - by apply IH2.
  - injection Hs as -> <-. eauto.
Qed.

Lemma nullable_lang r : nullable r = true <-> lang r [].
Proof.
  induction r as [| |k|r1 IH1 r2 IH2|r1 IH1 r2 IH2|r IH]; simpl.
  - by rewrite lang_None.
  - by rewrite lang_Eps.
  - rewrite lang_Chr. split; [done|]. by intros (c & ? & _).
  - rewrite andb_true_iff, IH1, IH2, lang_Seq. split.
    + intros [H1 H2]. by exists [], [].
    + intros (s1 & s2 & Hs & H1 & H2).
      symmetry in Hs. apply app_eq_nil in Hs as [-> ->]. done.
  - by rewrite orb_true_iff, IH1, IH2, lang_Alt.
  - split; [constructor|done].
Qed.

Lemma deriv_lang r c s : lang (deriv c r) s <-> lang r (c :: s).
Proof.
  revert s.
  induction r as [| |k|r1 IH1 r2 IH2|r1 IH1 r2 IH2|r IH]; intros s; simpl.
  - by rewrite !lang_None.
  - rewrite lang_None, lang_Eps. done.
  - rewrite lang_Chr. destruct (mem k c) eqn:Hk.
    + rewrite lang_Eps. split.
      * intros ->. eauto.
      * by intros (c' & [= <- ->] & _).
    + rewrite lang_None. split; [done|].
      intros (c' & [= <- ->] & H). congruence.
  - assert (Hseq : lang (Seq (deriv c r1) r2) s <->
              exists s1 s2, s = s1 ++ s2 /\ lang r1 (c :: s1) /\ lang r2 s2).
    { rewrite lang_Seq. by setoid_rewrite IH1. }
    rewrite (lang_Seq r1 r2).
    destruct (nullable r1) eqn:Hn.
    + rewrite lang_Alt, Hseq, IH2. split.
      * intros [(s1 & s2 & -> & H1 & H2)|H2].
        -- by exists (c :: s1), s2.
        -- apply nullable_lang in Hn. by exists [], (c :: s).
      * intros (s1 & s2 & Hs & H1 & H2). destruct s1 as [|a s1]; simpl in Hs.
        -- subst s2. by right.
        -- injection Hs as <- ->. left. eauto.
    + rewrite Hseq. split.
      * intros (s1 & s2 & -> & H1 & H2). by exists (c :: s1), s2.
      * intros (s1 & s2 & Hs & H1 & H2). destruct s1 as [|a s1]; simpl in Hs.
        -- apply nullable_lang in H1. congruence.
        -- injection Hs as <- ->. eauto.
  - by rewrite !lang_Alt, IH1, IH2.
  - rewrite lang_Seq. setoid_rewrite IH. split.
    + intros (s1 & s2 & -> & H1 & H2).
      by apply (lang_star_app r (c :: s1) s2).
    + intros H. by apply lang_Star_cons in H.
Qed.

(** [pattern.match]: some prefix of the subject is in the language. *)
Lemma match_spec r s :
  match_ r s = true <-> exists p t, s = p ++ t /\ lang r p.
Proof.
  revert r. induction s as [|c s IH]; intros r; simpl.
  - rewrite orb_false_r, nullable_lang. split.
    + intros H. by exists [], [].
    + intros (p & t & Hs & H).
      symmetry in Hs. apply app_eq_nil in Hs as [-> _]. done.
  - rewrite orb_true_iff, nullable_lang, IH. split.
    + intros [H|(p & t & -> & H)].
      * by exists [], (c :: s).
      * exists (c :: p), t. by rewrite <- deriv_lang.
    + intros (p & t & Hs & H). destruct p as [|a p]; simpl in Hs.
      * by left.
      * injection Hs as <- ->. right. exists p, t. by rewrite deriv_lang.
Qed.

(** [pattern.search]: some factor of the subject is in the language. *)
Lemma search_spec r s :
  search r s = true <-> exists a p t, s = a ++ p ++ t /\ lang r p.
Proof.
  induction s as [|c s IH]; cbn [search].
  - rewrite orb_false_r, match_spec. split.
    + intros (p & t & Hs & H). by exists [], p, t.
    + intros (a & p & t & Hs & H).
      symmetry in Hs. apply app_eq_nil in Hs as [-> Hs]. eauto.
  - rewrite orb_true_iff, match_spec, IH. split.
    + intros [(p & t & Hs & H)|(a & p & t & -> & H)].
      * by exists [], p, t.
      * by exists (c :: a), p, t.
    + intros (a & p & t & Hs & H). destruct a as [|x a]; simpl in Hs.
      * left. eauto.
      * injection Hs as <- ->. right. eauto.
Qed.

Lemma lang_Star_Chr k s :
  lang (Star (Chr k)) s <-> Forall (fun c => mem k c = true) s.
Proof.
  split.
  - induction s as [|c s IH]; [constructor|].
    intros H. apply lang_Star_cons in H as (s1 & s2 & -> & H1 & H2).
    apply lang_Chr in H1 as (c' & [= <- ->] & Hc). simpl in *.
    constructor; [done|]. by apply IH.
  - induction 1 as [|c s Hc _ IH]; [constructor|].
    apply (lang_star_app (Chr k) [c] s); [by constructor|done].
Qed.

Lemma lang_Plus_Chr k s :
  lang (Plus (Chr k)) s <->
  exists c s', s = c :: s' /\ mem k c = true
               /\ Forall (fun c => mem k c = true) s'.
Proof.
  unfold Plus. rewrite lang_Seq. setoid_rewrite lang_Chr.
  setoid_rewrite lang_Star_Chr. split.
  - intros (s1 & s2 & -> & (c & -> & Hc) & H). by exists c, s2.
  - intros (c & s' & -> & Hc & H). exists [c], s'. eauto.
Qed.

Lemma lang_word kw s : lang (word_of kw) s <-> ci_eq kw s.
Proof.
  unfold ci_eq. revert s. induction kw as [|k kw IH]; intros s; simpl.
  - rewrite lang_Eps. split; [intros ->; constructor|by inversion 1].
  - rewrite lang_Seq. setoid_rewrite lang_Chr. setoid_rewrite IH. split.
    + intros (s1 & s2 & -> & (c & -> & Hc) & H). by constructor.
    + inversion 1 as [|? c ? s' Hc H']; subst. exists [c], s'. eauto.
Qed.

End RegexFacts.

(** ** The classifier *)

Section ClassifierFacts.

Implicit Types (r : regex) (s t q : pystr) (c : N).

Lemma mem_Space c : mem Space c = is_space c.
Proof. done. Qed.

(** [match] through a sequence: a member of the head, then a match of
    the tail. *)
Lemma match_Seq r1 r2 t :
  match_ (Seq r1 r2) t = true <->
  exists a t', t = a ++ t' /\ lang r1 a /\ match_ r2 t' = true.
Proof.
  rewrite match_spec. setoid_rewrite match_spec. setoid_rewrite lang_Seq.
  split.
  - intros (p & rest & -> & a & b & -> & Ha & Hb).
    exists a, (b ++ rest). rewrite <- app_assoc. eauto 6.
  - intros (a & t' & -> & Ha & b & rest & -> & Hb).
    exists (a ++ b), rest. rewrite <- app_assoc. eauto 8.
Qed.

(** The leading [\s*] of a pattern consumes nothing of a text that does
    not start with whitespace. *)
Lemma match_lead r t :
  no_leading_space t ->
  match_ (Seq (Star (Chr Space)) r) t = true <-> match_ r t = true.
Proof.
  intros Ht. rewrite match_Seq. split.
  - intros (ws & t' & -> & Hws & H). apply lang_Star_Chr in Hws.
    destruct Hws as [|a ws Ha _]; [done|].
    simpl in Ht, Ha. congruence.
  - intros H. exists [], t. split; [done|]. split; [constructor|done].
Qed.

(** A keyword part followed by [\s+]. *)
Lemma match_then_space r t :
  match_ (Seq r (Plus (Chr Space))) t = true <->
  exists k w rest, t = k ++ w :: rest /\ lang r k /\ is_space w = true.
Proof.
  rewrite match_Seq. setoid_rewrite match_spec.
  setoid_rewrite lang_Plus_Chr. split.
  - intros (k & t' & -> & Hk & p & rest & -> & w & sp & -> & Hw & _).
    exists k, w, (sp ++ rest). by rewrite <- app_comm_cons.
  - intros (k & w & rest & -> & Hk & Hw).
    exists k, (w :: rest). split; [done|]. split; [done|].
    exists [w], rest. split; [done|]. exists w, []. by repeat split.
Qed.

Lemma match_pattern_kw kw t :
  no_leading_space t ->
  match_ (pattern_kw kw) t = true <-> starts_kw kw t.
Proof.
  intros Ht. unfold pattern_kw, starts_kw, Word.
  rewrite (match_lead _ t Ht), match_then_space.
  by setoid_rewrite lang_word.
Qed.

Lemma lang_ddl_keywords k :
  lang (Alt (Word "CREATE")
         (Alt (Word "DROP")
           (Alt (Word "ALTER")
             (Alt (Word "TRUNCATE") (Word "RENAME"))))) k <->
  exists kw, In kw ddl_keywords /\ ci_eq (u kw) k.
Proof.
  unfold Word. rewrite !lang_Alt, !lang_word. unfold ddl_keywords. split.
  - intros [H|[H|[H|[H|H]]]]; eexists; (split; [|exact H]); simpl; tauto.
  - intros (kw & Hin & H). simpl in Hin.
    destruct Hin as [<-|[<-|[<-|[<-|[<-|[]]]]]]; tauto.
Qed.

Lemma match_pattern_DDL t :
  no_leading_space t ->
  match_ pattern_DDL t = true <-> shape DDL t.
Proof.
  intros Ht. unfold pattern_DDL. simpl shape. unfold starts_kw.
  rewrite (match_lead _ t Ht), match_then_space.
  setoid_rewrite lang_ddl_keywords. split.
  - intros (k & w & rest & -> & (kw & Hin & Hk) & Hw).
    exists kw. split; [done|]. by exists k, w, rest.
  - intros (kw & Hin & k & w & rest & -> & Hk & Hw).
    exists k, w, rest. split; [done|]. split; [by exists kw|done].
Qed.

Lemma lang_Star_Dot s :
  lang (Star (Chr Dot)) s <-> Forall (fun c => c <> 10) s.
Proof.
  rewrite lang_Star_Chr. apply Forall_iff. intros c. simpl.
  rewrite negb_true_iff, N.eqb_neq. done.
Qed.

Lemma lang_Plus_Space s :
  lang (Plus (Chr Space)) s <->
  s <> [] /\ Forall (fun c => is_space c = true) s.
Proof.
  rewrite lang_Plus_Chr. split.
  - intros (c & s' & -> & Hc & Hs). split; [done|]. by constructor.
  - intros [Hne Hs]. destruct Hs as [|c s' Hc Hs]; [done|]. eauto.
Qed.

(** The optional clause of the SELECT pattern: [WITH\s+.*?\s+]. *)
Lemma lang_with_clause o :
  lang (Seq (Word "WITH")
         (Seq (Plus (Chr Space))
           (Seq (Star (Chr Dot)) (Plus (Chr Space))))) o <->
  exists k sp1 clause sp2,
    o = k ++ sp1 ++ clause ++ sp2
    /\ ci_eq (u "WITH") k
    /\ sp1 <> [] /\ Forall (fun c => is_space c = true) sp1
    /\ Forall (fun c => c <> 10) clause
    /\ sp2 <> [] /\ Forall (fun c => is_space c = true) sp2.
Proof.
  unfold Word. split.
  - intros H. apply lang_Seq in H as (k & x & -> & Hk & H).
    apply lang_Seq in H as (sp1 & y & -> & H1 & H).
    apply lang_Seq in H as (cl & sp2 & -> & Hc & H2).
    apply lang_word in Hk. apply lang_Star_Dot in Hc.
    apply lang_Plus_Space in H1 as [? ?], H2 as [? ?].
    exists k, sp1, cl, sp2. tauto.
  - intros (k & sp1 & cl & sp2 & -> & Hk & H1 & H1' & Hc & H2 & H2').
    apply lang_seq; [by apply lang_word|].
    apply lang_seq; [by apply lang_Plus_Space|].
    apply lang_seq; [by apply lang_Star_Dot|by apply lang_Plus_Space].
Qed.

Lemma match_pattern_SELECT t :
  no_leading_space t ->
  match_ pattern_SELECT t = true <-> shape SELECT t.
Proof.
  intros Ht. unfold pattern_SELECT.
  rewrite (match_lead _ t Ht), match_Seq. simpl shape.
  assert (Hkw : forall x, match_ (Seq (Word "SELECT") (Plus (Chr Space))) x
                          = true <-> starts_kw "SELECT" x).
  { intros x. rewrite match_then_space. unfold starts_kw, Word.
    by setoid_rewrite lang_word. }
  split.
  - intros (o & t' & -> & Ho & Hm). apply Hkw in Hm.
    apply lang_Opt in Ho as [Ho| ->]; [|by right].
    apply lang_with_clause in Ho as (k0 & sp1 & cl & sp2 & -> & H).
    left. exists k0, sp1, cl, sp2, t'. rewrite <- !app_assoc. tauto.
  - intros [(k0 & sp1 & cl & sp2 & rest0 & -> & H)|Hs].
    + exists (k0 ++ sp1 ++ cl ++ sp2), rest0. rewrite <- !app_assoc.
      split; [done|]. split; [|apply Hkw; tauto].
      apply lang_Opt. left. apply lang_with_clause.
      exists k0, sp1, cl, sp2. tauto.
    + exists [], t. split; [done|]. split; [|by apply Hkw].
      apply lang_Opt. by right.
Qed.

Lemma no_leading_space_strip q : no_leading_space (strip q).
Proof.
  unfold no_leading_space. destruct (strip q) as [|c t] eqn:H; [done|].
  by apply strip_head in H.
Qed.

(** The loop of [get_query_type] returns the first shape the stripped
    text has. *)
Lemma get_query_type_classify q : classify (strip q) (get_query_type q).
Proof.
  unfold get_query_type, patterns, first_match.
  pose proof (no_leading_space_strip q) as Ht.
  pose proof (match_pattern_SELECT _ Ht) as HS.
  pose proof (match_pattern_kw "INSERT" _ Ht) as HI.
  pose proof (match_pattern_kw "UPDATE" _ Ht) as HU.
  pose proof (match_pattern_kw "DELETE" _ Ht) as HD.
  pose proof (match_pattern_DDL _ Ht) as HL.
  fold pattern_INSERT in HI. fold pattern_UPDATE in HU.
  fold pattern_DELETE in HD.
  set (t := strip q) in *. clearbody t. 
  assert (Hneg : forall b P, (b = true <-> P) -> b = false -> ~ P).
  { intros b P Hb -> HP. apply Hb in HP. done. }
  destruct (match_ pattern_SELECT t) eqn:ES.
  { apply classify_SELECT. by apply HS. }
  destruct (match_ pattern_INSERT t) eqn:EI.
  { apply classify_INSERT; [by apply (Hneg _ _ HS)|by apply HI]. }
  destruct (match_ pattern_UPDATE t) eqn:EU.
  { apply classify_UPDATE;
      [by apply (Hneg _ _ HS)|by apply (Hneg _ _ HI)|by apply HU]. }
  destruct (match_ pattern_DELETE t) eqn:ED.
  { apply classify_DELETE;
      [by apply (Hneg _ _ HS)|by apply (Hneg _ _ HI)
      |by apply (Hneg _ _ HU)|by apply HD]. }
  destruct (match_ pattern_DDL t) eqn:EL.
  { apply classify_DDL;
      [by apply (Hneg _ _ HS)|by apply (Hneg _ _ HI)
      |by apply (Hneg _ _ HU)|by apply (Hneg _ _ HD)|by apply HL]. }
  apply classify_OTHER;
    [by apply (Hneg _ _ HS)|by apply (Hneg _ _ HI)
    |by apply (Hneg _ _ HU)|by apply (Hneg _ _ HD)|by apply (Hneg _ _ HL)].
Qed.

(** The order of section 4.1 gives a text one category only. *)
Lemma classify_functional t (c1 c2 : QueryType) :
  classify t c1 -> classify t c2 -> c1 = c2.
Proof. intros H1 H2. inversion H1; inversion H2; subst; tauto. Qed.

End ClassifierFacts.

(** ** The shapes exclude one another *)

Section ShapeFacts.

Implicit Types (s t q k : pystr) (kw : string).

(** Comparisons on code points, turned into arithmetic. *)
Ltac n_arith :=
  repeat first
    [ rewrite orb_false_iff | rewrite andb_false_iff
    | rewrite N.eqb_neq | rewrite N.leb_gt ];
  lia.

Lemma ci_eq_length (pat : pystr) k : ci_eq pat k -> length k = length pat.
Proof. intros H. symmetry. by eapply Forall2_length. Qed.

Lemma ci_eq_fold (pat : pystr) k :
  ci_eq pat k -> map casefold k = map ascii_lower pat.
Proof.
  induction 1 as [|a c pat' k' Hc _ IH]; simpl; [done|].
  simpl in Hc. apply N.eqb_eq in Hc. by rewrite Hc, IH.
Qed.

(** What a character matching an upper-case letter of a pattern can be. *)
Lemma mem_LitI_cases a c :
  65 <= a <= 90 -> mem (LitI a) c = true ->
  c = a \/ c = a + 32
  \/ (a = 73 /\ (c = 0x130 \/ c = 0x131))
  \/ (a = 83 /\ c = 0x17F)
  \/ (a = 75 /\ c = 0x212A).
Proof.
  intros Ha. simpl. unfold casefold, ascii_lower.
  replace ((65 <=? a) && (a <=? 90)) with true
    by (symmetry; apply andb_true_iff; split; apply N.leb_le; lia).
  destruct (N.eqb_spec c 0x130) as [->|?]; [rewrite N.eqb_eq; lia|].
  destruct (N.eqb_spec c 0x131) as [->|?]; [rewrite N.eqb_eq; lia|].
  destruct (N.eqb_spec c 0x17F) as [->|?]; [rewrite N.eqb_eq; lia|].
  destruct (N.eqb_spec c 0x212A) as [->|?]; [rewrite N.eqb_eq; lia|].
  destruct (N.leb_spec 65 c); destruct (N.leb_spec c 90); simpl;
    rewrite N.eqb_eq; lia.
Qed.

Lemma mem_LitI_plain a c :
  65 <= a <= 90 -> mem (LitI a) c = true ->
  is_space c = false /\ c <> 59.
Proof.
  intros Ha Hc. pose proof (mem_LitI_cases a c Ha Hc) as H.
  split; [|lia]. unfold is_space. n_arith.
Qed.

Lemma keyword_letters kw :
  In kw sql_keywords -> Forall (fun a => 65 <= a <= 90) (u kw).
Proof.
  intros H. simpl in H.
  repeat (destruct H as [<-|H];
          [repeat constructor; by vm_compute|]).
  done.
Qed.

(** A text that spells a keyword has neither whitespace nor semicolon. *)
Lemma keyword_plain kw k :
  In kw sql_keywords -> ci_eq (u kw) k ->
  Forall (fun c => is_space c = false /\ c <> 59) k.
Proof.
  intros Hin Hk. pose proof (keyword_letters kw Hin) as Hl.
  unfold ci_eq in Hk. induction Hk as [|a c pat' k' Hc _ IH]; [constructor|].
  apply Forall_cons in Hl as [Ha Hl]. constructor; [|by apply IH].
  by apply (mem_LitI_plain a).
Qed.

(** The first two characters of a text of a given shape, folded. *)
Lemma starts_kw_head2 kw t :
  (2 <= length (u kw))%nat -> starts_kw kw t ->
  map casefold (firstn 2 t) = firstn 2 (map ascii_lower (u kw)).
Proof.
  intros Hlen (k & w & rest & -> & Hk & _).
  pose proof (ci_eq_length _ _ Hk) as Hl.
  rewrite firstn_app. replace (2 - length k)%nat with 0%nat by lia.
  simpl (firstn 0 _). rewrite app_nil_r.
  by rewrite <- firstn_map, (ci_eq_fold _ _ Hk).
Qed.

Lemma with_select_head2 t :
  with_select t -> map casefold (firstn 2 t) = [119; 105].
Proof.
  intros (k & sp1 & cl & sp2 & rest & -> & Hk & _).
  assert (Hl : length k = 4%nat) by (by rewrite (ci_eq_length _ _ Hk)).
  rewrite firstn_app. replace (2 - length k)%nat with 0%nat by lia.
  simpl (firstn 0 _). rewrite app_nil_r.
  by rewrite <- firstn_map, (ci_eq_fold _ _ Hk).
Qed.

Lemma shape_head2 (c : QueryType) t :
  shape c t ->
  In (c, map casefold (firstn 2 t))
     [ (SELECT, [119; 105]); (SELECT, [115; 101]); (INSERT, [105; 110]);
       (UPDATE, [117; 112]); (DELETE, [100; 101]);
       (DDL, [99; 114]); (DDL, [100; 114]); (DDL, [97; 108]);
       (DDL, [116; 114]); (DDL, [114; 101]) ].
Proof.
  assert (Hk : forall kw, starts_kw kw t ->
            (2 <=? length (u kw))%nat = true ->
            map casefold (firstn 2 t) = firstn 2 (map ascii_lower (u kw))).
  { intros kw Hs Hl. apply starts_kw_head2; [|done]. by apply Nat.leb_le. }
  destruct c; simpl shape; intros H.
  - destruct H as [H|H].
    + rewrite (with_select_head2 t H). simpl. tauto.
    + rewrite (Hk _ H eq_refl). simpl. tauto.
  - rewrite (Hk _ H eq_refl). simpl. tauto.
  - rewrite (Hk _ H eq_refl). simpl. tauto.
  - rewrite (Hk _ H eq_refl). simpl. tauto.
  - destruct H as (kw & Hin & H). simpl in Hin.
    destruct Hin as [<-|[<-|[<-|[<-|[<-|[]]]]]];
      rewrite (Hk _ H eq_refl); simpl; tauto.
  - done.
Qed.

(** No text has the shape of two categories. *)
Lemma shape_exclusive (c1 c2 : QueryType) t :
  shape c1 t -> shape c2 t -> c1 = c2.
Proof.
  intros H1 H2. apply shape_head2 in H1, H2.
  set (h := map casefold (firstn 2 t)) in *. clearbody h.
  simpl in H1, H2.
  repeat (destruct H1 as [H1|H1]; [injection H1 as <- <-|]); [..|done];
    repeat (destruct H2 as [H2|H2]; [by injection H2|]); done.
Qed.

(** A text of some shape contains a whitespace character. *)
Lemma starts_kw_space kw t :
  starts_kw kw t -> Exists (fun c => is_space c = true) t.
Proof.
  intros (k & w & rest & -> & _ & Hw).
  apply Exists_app. right. by constructor.
Qed.

Lemma shape_space (c : QueryType) t :
  shape c t -> Exists (fun c => is_space c = true) t.
Proof.
  destruct c; simpl; try (by apply starts_kw_space); [| |done].
  - intros [(k & sp1 & cl & sp2 & rest & -> & H)|H];
      [|by eapply starts_kw_space].
    destruct H as (_ & _ & _ & _ & _ & _ & H).
    do 4 (apply Exists_app; right). by eapply starts_kw_space.
  - intros (kw & _ & H). by eapply starts_kw_space.
Qed.

Lemma classify_shape t (c : QueryType) :
  classify t c -> c <> OTHER -> shape c t.
Proof. by destruct 1. Qed.

Lemma classify_no_shape t (c : QueryType) :
  classify t OTHER -> ~ shape c t.
Proof. inversion 1; subst. destruct c; try assumption. intros []. Qed.

(** The category of a query is the shape of its stripped text. *)
Lemma get_query_type_shape q (c : QueryType) :
  c <> OTHER -> get_query_type q = c <-> shape c (strip q).
Proof.
  intros Hc. pose proof (get_query_type_classify q) as H. split.
  - intros <-. by apply classify_shape.
  - intros Hs. destruct (decide (get_query_type q = OTHER)) as [E|E].
    + rewrite E in H. by apply (classify_no_shape _ c) in H.
    + apply (shape_exclusive _ _ (strip q)); [|done].
      by apply classify_shape.
Qed.

Lemma get_query_type_OTHER q :
  get_query_type q = OTHER <-> forall c : QueryType, ~ shape c (strip q).
Proof.
  pose proof (get_query_type_classify q) as H. split.
  - intros E c. rewrite E in H. by apply classify_no_shape.
  - intros Hn. destruct (decide (get_query_type q = OTHER)) as [E|E]; [done|].
    apply classify_shape in H; [|done]. by apply Hn in H.
Qed.

(** Whitespace around a query does not change its category. *)
Lemma get_query_type_leading ws q :
  Forall (fun c => is_space c = true) ws ->
  get_query_type (ws ++ q) = get_query_type q.
Proof.
  intros H. unfold get_query_type. by rewrite strip_app_space.
Qed.

Lemma get_query_type_trailing q ws :
  Forall (fun c => is_space c = true) ws ->
  get_query_type (q ++ ws) = get_query_type q.
Proof.
  intros H. unfold get_query_type. by rewrite strip_app_space_r.
Qed.

(** A text without whitespace is OTHER. *)
Lemma get_query_type_no_space q :
  Forall (fun c => is_space c = false) q -> get_query_type q = OTHER.
Proof.
  intros H. apply get_query_type_OTHER. intros c Hs.
  rewrite (strip_no_space q H) in Hs. apply shape_space in Hs.
  apply Exists_exists in Hs as (x & Hx & Hsp).
  rewrite Forall_forall in H. apply H in Hx. congruence.
Qed.

End ShapeFacts.

(** ** Multiple statements *)

Section MultiStatementFacts.

Implicit Types (s t q : pystr).

Lemma lang_multi_statement p :
  lang multi_statement_pattern p <->
  exists ws c, p = 59 :: ws ++ [c]
               /\ Forall (fun x => is_space x = true) ws
               /\ is_space c = false.
Proof.
  unfold multi_statement_pattern. split.
  - intros H. apply lang_Seq in H as (s1 & x & -> & H1 & H).
    apply lang_Seq in H as (ws & s3 & -> & Hws & H3).
    apply lang_Chr in H1 as (a & -> & Ha).
    apply lang_Chr in H3 as (c & -> & Hc).
    apply lang_Star_Chr in Hws. simpl in Ha, Hc.
    apply N.eqb_eq in Ha as ->. apply negb_true_iff in Hc.
    by exists ws, c.
  - intros (ws & c & -> & Hws & Hc).
    apply (lang_seq _ _ [59] (ws ++ [c])); [by constructor|].
    apply lang_seq; [by apply lang_Star_Chr|].
    constructor. simpl. by rewrite Hc.
Qed.

(** [multi_statement_pattern.search] finds the signal of section 4.1. *)
Lemma search_multi_statement q :
  search multi_statement_pattern q = true <-> has_second_statement q.
Proof.
  rewrite search_spec. unfold has_second_statement.
  setoid_rewrite lang_multi_statement. split.
  - intros (a & p & t & -> & ws & c & -> & Hws & Hc).
    exists a, ws, c, t. split; [|done].
    by rewrite <- app_comm_cons, <- app_assoc.
  - intros (a & ws & c & t & -> & Hws & Hc).
    exists a, (59 :: ws ++ [c]), t. split; [|by exists ws, c].
    by rewrite <- app_comm_cons, <- app_assoc.
Qed.

(** The place of the first semicolon of a text is determined. *)
Lemma first_semicolon a b r1 r2 :
  ~ In 59 a -> a ++ 59 :: r1 = b ++ 59 :: r2 ->
  (exists b', b = a ++ 59 :: b') \/ (a = b /\ r1 = r2).
Proof.
  revert b. induction a as [|x a IH]; intros b Ha E.
  - destruct b as [|y b]; simpl in E.
    + injection E as ->. by right.
    + injection E as <- ->. left. by exists b.
  - destruct b as [|y b]; simpl in E.
    + injection E as -> _. exfalso. apply Ha. by left.
    + injection E as <- E. destruct (IH b) as [(b' & ->)|[-> ->]].
      * intros Hin. apply Ha. by right.
      * done.
      * left. by exists b'.
      * by right.
Qed.

(** After a trailing semicolon there is no second statement. *)
Lemma trailing_semicolon a ws :
  ~ In 59 a -> Forall (fun x => is_space x = true) ws ->
  ~ has_second_statement (a ++ 59 :: ws).
Proof.
  intros Ha Hws (b & ws' & c & t & E & _ & Hc).
  assert (Hin : forall r, ws = r ++ c :: t -> False).
  { intros r ->. apply Forall_app in Hws as [_ Hws].
    apply Forall_cons in Hws as [Hsp _]. congruence. }
  destruct (first_semicolon a b ws (ws' ++ c :: t) Ha E)
    as [(b' & ->)|[_ ->]]; [|by apply (Hin ws')].
  rewrite <- app_assoc, <- app_comm_cons in E.
  apply app_inv_head in E. injection E as ->.
  apply Forall_app in Hws as [_ Hws].
  apply Forall_cons in Hws as [Hsp _]. by compute in Hsp.
Qed.

Lemma no_semicolon q : ~ In 59 q -> ~ has_second_statement q.
Proof.
  intros Hq (b & ws & c & t & -> & _). apply Hq.
  apply in_or_app. right. by left.
Qed.

Lemma search_multi_statement_false q :
  search multi_statement_pattern q = false <-> ~ has_second_statement q.
Proof.
  rewrite <- search_multi_statement. by destruct (search _ q).
Qed.

End MultiStatementFacts.

(** ** [validate_query] *)

Section ValidatorFacts.

Implicit Types (self : QueryValidator) (q : pystr).

Lemma validate_query_multi self q allow_write :
  search multi_statement_pattern q = true ->
  validate_query self q allow_write = inl (ValueError msg_multi).
Proof. intros H. unfold validate_query. by rewrite H. Qed.

(** The decision on a single statement, by category. *)
Lemma validate_query_single self q allow_write :
  search multi_statement_pattern q = false ->
  validate_query self q allow_write =
    match get_query_type q with
    | DDL => inl (ValueError msg_ddl)
    | SELECT | OTHER => inr tt
    | c =>
        if negb allow_write then
          inl (ValueError
                 (QueryType_value c ++ u " operations require write permission"))
        else if flag_of c self then inr tt
        else inl (ValueError
                    (QueryType_value c ++ u " operations are not allowed"))
    end.
Proof.
  intros H. unfold validate_query. rewrite H.
  destruct (get_query_type q); simpl; try done;
    destruct allow_write; simpl; try done.
  - by destruct (allow_insert self).
  - by destruct (allow_update self).
  - by destruct (allow_delete self).
Qed.

(** Only the multiple-statement check raises its message. *)
Lemma validate_query_structural self q allow_write :
  validate_query self q allow_write = inl (ValueError msg_multi) <->
  has_second_statement q.
Proof.
  rewrite <- search_multi_statement.
  destruct (search multi_statement_pattern q) eqn:E.
  - by rewrite validate_query_multi.
  - rewrite validate_query_single by done. split; [|done].
    destruct (get_query_type q), allow_write; simpl; try done;
      repeat case_match; done.
Qed.

End ValidatorFacts.

(** ** [execute] *)

Section ExecutorFacts.

Context {W : Type}.
Implicit Types (conn : connection W) (self : QueryExecutor) (q : pystr)
  (w : W).

Lemma execute_rejected self q params database e :
  validate_query (validator self) q true = inl e ->
  execute self q params database = execute_except q e.
Proof. intros H. unfold execute. by rewrite H. Qed.

Lemma run_execute_except conn q e w :
  run conn (execute_except q e) w =
    (inr (error_envelope (exn_text e)), w,
     [EvLogError (u "Query execution failed: " ++ exn_text e) q]).
Proof. done. Qed.

(** A rejected query: the error envelope, the world untouched, no call
    to the connection manager. *)
Lemma run_execute_rejected conn self q params database e w :
  validate_query (validator self) q true = inl e ->
  run conn (execute self q params database) w =
    (inr (error_envelope (exn_text e)), w,
     [EvLogError (u "Query execution failed: " ++ exn_text e) q]).
Proof.
  intros H. by rewrite (execute_rejected _ _ _ _ _ H), run_execute_except.
Qed.

(** [_add_database_prefix] leaves the query as it is, so the database
    argument does not reach the connection manager. *)
Lemma execute_database self q params database :
  execute self q params database = execute self q params None.
Proof.
  unfold execute. destruct (validate_query _ _ _); [done|].
  by destruct database as [[|c db]|].
Qed.

(** An accepted query whose execution raises. *)
Lemma run_execute_raises conn self q params database w e w' :
  validate_query (validator self) q true = inr tt ->
  conn q (as_tuple params) w = (inl e, w') ->
  run conn (execute self q params database) w =
    (inr (error_envelope (exn_text e)), w',
     [EvExecute q (as_tuple params);
      EvLogError (u "Query execution failed: " ++ exn_text e) q]).
Proof.
  intros Hv Hc. rewrite execute_database. unfold execute. rewrite Hv.
  simpl. by rewrite Hc.
Qed.

(** An accepted query whose execution returns. *)
Lemma run_execute_returns conn self q params database w result w' :
  validate_query (validator self) q true = inr tt ->
  conn q (as_tuple params) w = (inr result, w') ->
  run conn (execute self q params database) w =
    (inr (if bool_decide (get_query_type q = SELECT)
          then {[ "success" := PBool true; "data" := result;
                  "rows_affected" := PNone ]}
          else {[ "success" := PBool true; "data" := PNone;
                  "rows_affected" := result ]}),
     w', [EvExecute q (as_tuple params)]).
Proof.
  intros Hv Hc. rewrite execute_database. unfold execute. rewrite Hv.
  simpl. rewrite Hc. by destruct (bool_decide _).
Qed.

End ExecutorFacts.

(** ** [format_query_result] *)

Section FormatFacts.

Lemma format_error_envelope text :
  format_query_result (error_envelope text) =
    inr {[ "success" := PBool false;
           "error" := PStr text;
           "message" := PStr (u "Query execution failed") ]}.
Proof. done. Qed.

(** On a success envelope of [execute] the formatted result has the
    keys success, message, data and metadata. *)
Lemma format_success_envelope (data rows_affected : pyval) :
  exists metadata : pyval,
    format_query_result
      {[ "success" := PBool true; "data" := data;
         "rows_affected" := rows_affected ]} =
    inr (<[ "metadata" := metadata ]>
           (<[ "data" := data ]>
              {[ "success" := PBool true;
                 "message" := PStr (u "Query executed successfully") ]})).
Proof.
  unfold format_query_result, getitem.
  change (({[ "success" := PBool true; "data" := data;
              "rows_affected" := rows_affected ]} : dict) !! "success")
    with (Some (PBool true)).
  change (({[ "success" := PBool true; "data" := data;
              "rows_affected" := rows_affected ]} : dict) !! "data")
    with (Some data).
  change (({[ "success" := PBool true; "data" := data;
              "rows_affected" := rows_affected ]} : dict) !! "rows_affected")
    with (Some rows_affected).
  simpl. destruct data; eauto.
Qed.

End FormatFacts.

(** ** The classifier, character by character *)

Section CharacterFacts.

Implicit Types (s t q k : pystr) (kw : string).

Lemma is_space_whitespace c : is_space c = true <-> whitespace c.
Proof.
  unfold is_space, whitespace.
  rewrite !orb_true_iff, !andb_true_iff, !N.leb_le, !N.eqb_eq. tauto.
Qed.

Lemma is_space_not_whitespace c : is_space c = false <-> ~ whitespace c.
Proof.
  rewrite <- is_space_whitespace. by destruct (is_space c).
Qed.

Lemma Forall_whitespace s :
  Forall (fun c => is_space c = true) s <-> Forall whitespace s.
Proof. apply Forall_iff, is_space_whitespace. Qed.

(** The characters a letter of a pattern matches, no more and no less. *)
Lemma letter_match_mem a c :
  65 <= a <= 90 -> (mem (LitI a) c = true <-> letter_match a c).
Proof.
  intros Ha. split; [by apply mem_LitI_cases|].
  unfold letter_match. intros H. simpl. unfold casefold, ascii_lower.
  replace ((65 <=? a) && (a <=? 90)) with true
    by (symmetry; apply andb_true_iff; split; apply N.leb_le; lia).
  destruct (N.eqb_spec c 0x130) as [->|?]; [rewrite N.eqb_eq; lia|].
  destruct (N.eqb_spec c 0x131) as [->|?]; [rewrite N.eqb_eq; lia|].
  destruct (N.eqb_spec c 0x17F) as [->|?]; [rewrite N.eqb_eq; lia|].
  destruct (N.eqb_spec c 0x212A) as [->|?]; [rewrite N.eqb_eq; lia|].
  destruct (N.leb_spec 65 c); destruct (N.leb_spec c 90); simpl;
    rewrite N.eqb_eq; lia.
Qed.

Lemma spells_ci_eq kw k :
  In kw sql_keywords -> (spells kw k <-> ci_eq (u kw) k).
Proof.
  intros Hin. pose proof (keyword_letters kw Hin) as Hl.
  unfold spells, ci_eq. revert k.
  induction Hl as [|a pat Ha _ IH]; intros k.
  - split; intros H; inversion H; constructor.
  - split; intros H; inversion H as [|? c ? k' Hc Hk]; subst;
      (constructor; [by apply (letter_match_mem a c Ha)|by apply IH]).
Qed.

Lemma keyword_then_space_starts_kw kw t :
  In kw sql_keywords -> (keyword_then_space kw t <-> starts_kw kw t).
Proof.
  intros Hin. split; intros (k & w & rest & Ht & Hk & Hw);
    exists k, w, rest; (split; [done|]); split;
    (by apply (spells_ci_eq kw k Hin)) || (by apply is_space_whitespace).
Qed.

Lemma with_then_select_with_select t : with_then_select t <-> with_select t.
Proof.
  assert (Hw : In "WITH"%string sql_keywords) by (simpl; tauto).
  assert (Hs : In "SELECT"%string sql_keywords) by (simpl; tauto).
  split;
    intros (k & sp1 & clause & sp2 & rest & Ht & Hk & H1 & Hs1 & Hc & H2
            & Hs2 & Hr);
    exists k, sp1, clause, sp2, rest;
    (split; [done|]); (split; [by apply (spells_ci_eq _ k Hw)|]);
    (split; [done|]); (split; [by apply Forall_whitespace|]);
    (split; [done|]); (split; [done|]);
    (split; [by apply Forall_whitespace|]);
    by apply (keyword_then_space_starts_kw _ rest Hs).
Qed.

(** The shapes written over code points are the shapes of the patterns. *)
Lemma text_shape_shape (c : QueryType) t : text_shape c t <-> shape c t.
Proof.
  destruct c; simpl; try done.
  - rewrite with_then_select_with_select.
    rewrite keyword_then_space_starts_kw by (simpl; tauto). done.
  - apply keyword_then_space_starts_kw. simpl. tauto.
  - apply keyword_then_space_starts_kw. simpl. tauto.
  - apply keyword_then_space_starts_kw. simpl. tauto.
  - split; intros (kw & Hin & Hk); exists kw; (split; [done|]);
      apply (keyword_then_space_starts_kw kw t); try done;
      simpl in Hin |- *; tauto.
Qed.

Lemma text_category_classify t (c : QueryType) :
  text_category t c <-> classify t c.
Proof.
  unfold text_category. cbn [first_shape].
  rewrite !text_shape_shape. split.
  - intros [[H ->]|[N1 [[H ->]|[N2 [[H ->]|[N3 [[H ->]|[N4 H]]]]]]]];
      [| | | |destruct H as [[H ->]|[N5 ->]]].
    + by constructor.
    + by constructor.
    + by constructor.
    + by constructor.
    + by constructor.
    + by constructor.
  - inversion 1; subst; tauto.
Qed.

(** A trimmed text is its own stripped form, and it is what [strip] finds
    between the whitespace around it. *)
Lemma strip_trimmed t : trimmed t -> strip t = t.
Proof.
  intros [Hh Hl]. destruct t as [|a s]; [done|].
  unfold strip.
  rewrite (lstrip_id (a :: s) a s eq_refl)
    by (apply is_space_not_whitespace; by apply (Hh a s)).
  destruct (exists_last (l := a :: s)) as (s' & c & E); [done|].
  rewrite E. unfold rstrip. rewrite rev_unit.
  rewrite (lstrip_id (c :: rev s') c (rev s') eq_refl)
    by (apply is_space_not_whitespace; by apply (Hl s' c)).
  change (c :: rev s') with ([c] ++ rev s').
  by rewrite rev_app_distr, rev_involutive.
Qed.

Lemma strip_between ws1 t ws2 :
  Forall whitespace ws1 -> Forall whitespace ws2 -> trimmed t ->
  strip (ws1 ++ t ++ ws2) = t.
Proof.
  intros H1 H2 Ht.
  rewrite strip_app_space by (by apply Forall_whitespace).
  rewrite strip_app_space_r by (by apply Forall_whitespace).
  by apply strip_trimmed.
Qed.

(** Every text is whitespace, a trimmed text, whitespace. *)
Lemma strip_decomposition q :
  exists ws1 ws2,
    q = ws1 ++ strip q ++ ws2
    /\ Forall whitespace ws1 /\ Forall whitespace ws2 /\ trimmed (strip q).
Proof.
  destruct (lstrip_suffix q) as (ws1 & Hq & H1).
  destruct (rstrip_prefix (lstrip q)) as (ws2 & Hl & H2).
  exists ws1, ws2. split; [|split; [|split]].
  - unfold strip. by rewrite <- Hl.
  - by apply Forall_whitespace.
  - by apply Forall_whitespace.
  - split.
    + intros a s E. apply is_space_not_whitespace. by eapply strip_head.
    + intros s c E. apply is_space_not_whitespace. by eapply strip_last.
Qed.

(** Folding a character onto the first letter of a keyword. *)
Lemma casefold_initial c :
  In (casefold c) keyword_initials -> In c keyword_first_characters.
Proof.
  unfold casefold, ascii_lower, keyword_initials, keyword_first_characters.
  destruct (N.eqb_spec c 0x130) as [->|?]; [simpl; tauto|].
  destruct (N.eqb_spec c 0x131) as [->|?]; [simpl; tauto|].
  destruct (N.eqb_spec c 0x17F) as [->|?]; [simpl; tauto|].
  destruct (N.eqb_spec c 0x212A) as [->|?]; [simpl; lia|].
  destruct (N.leb_spec 65 c); destruct (N.leb_spec c 90); simpl; lia.
Qed.

End CharacterFacts.

(** ** The queries of the test suite

    [tests/security/conftest.py] and [tests/security/test_sql_injection.py]
    list queries with the outcome they expect; the model agrees on them.
    The last examples sit on the edges of the patterns. *)

Section TestSuite.

Let all_flags : QueryValidator :=
  {| allow_insert := true; allow_update := true; allow_delete := true |}.

Example safe_select :
  get_query_type (u "SELECT id, name FROM users WHERE id = %s") = SELECT.
Proof. vm_compute. reflexivity. Qed.

Example safe_cte :
  get_query_type
    (u "WITH active_users AS (SELECT * FROM users WHERE active = 1) SELECT * FROM active_users")
  = SELECT.
Proof. vm_compute. reflexivity. Qed.

Example edge_mixed_case : get_query_type (u "SeLeCt * FrOm users") = SELECT.
Proof. vm_compute. reflexivity. Qed.

(** ["SELECT\t*\nFROM\tusers"] *)
Example edge_tabs_and_newlines :
  get_query_type (u "SELECT" ++ 9 :: u "*" ++ 10 :: u "FROM" ++ 9 :: u "users")
  = SELECT.
Proof. vm_compute. reflexivity. Qed.

Example ddl_blocked :
  Forall (fun q => validate_query all_flags (u q) true
                   = inl (ValueError msg_ddl))
    [ "CREATE TABLE hack (id INT)"; "DROP TABLE users";
      "ALTER TABLE users ADD COLUMN admin BOOLEAN";
      "TRUNCATE TABLE logs" ]%string.
Proof. repeat constructor. Qed.

Example stacked_queries_blocked :
  Forall (fun q => validate_query all_flags (u q) true
                   = inl (ValueError msg_multi))
    [ "SELECT * FROM users; DROP TABLE users;";
      "UPDATE users SET admin=1 WHERE id=1; DELETE FROM logs;" ]%string.
Proof. repeat constructor. Qed.

(** A keyword followed by whitespace alone is stripped bare. *)
Example keyword_then_spaces : get_query_type (u "DROP   ") = OTHER.
Proof. vm_compute. reflexivity. Qed.

(** A keyword followed by something other than whitespace. *)
Example keyword_then_star : get_query_type (u "SELECT*FROM users") = OTHER.
Proof. vm_compute. reflexivity. Qed.

(** [.] stops at a newline: a WITH clause laid out over several lines is
    SELECT only if some SELECT follows whitespace on the line of WITH.
    ["WITH cte\nAS (SELECT 1)\nSELECT * FROM cte"] *)
Example cte_over_lines :
  get_query_type
    (u "WITH cte" ++ 10 :: u "AS (SELECT 1)" ++ 10 :: u "SELECT * FROM cte")
  = OTHER.
Proof. vm_compute. reflexivity. Qed.

(** [re.IGNORECASE] on a [str] pattern: U+017F matches the letter S. *)
Example long_s_select : get_query_type (0x17F :: u "ELECT 1") = SELECT.
Proof. vm_compute. reflexivity. Qed.

End TestSuite.

(* ===================================================================== *)
(** * The claims                                                          *)
(* ===================================================================== *)

(** C1, as stated, does not hold: the error field of the envelope is the
    text of the downstream exception itself.  The same query on two
    connection managers that differ only in the message of the error they
    raise gives two envelopes whose error fields are those two messages. *)
Lemma C1_error_field_echoes_driver_text :
  exists d1 d2 : dict,
    result_of
      (run (conn_raising
              (u "Access denied for user 'root'@'db1' (using password: YES)"))
           (execute (executor_with false false false) (u "SELECT 1") PNone None)
           tt) = inr d1
    /\ result_of
      (run (conn_raising (u "Lost connection to MySQL server during query"))
           (execute (executor_with false false false) (u "SELECT 1") PNone None)
           tt) = inr d2
    /\ d1 !! "error"
       = Some (PStr (u "Access denied for user 'root'@'db1' (using password: YES)"))
    /\ d2 !! "error"
       = Some (PStr (u "Lost connection to MySQL server during query"))
    /\ d1 !! "error" <> d2 !! "error".
Proof.
  eexists _, _. split; [reflexivity|]. split; [reflexivity|].
  split; [reflexivity|]. split; [reflexivity|].
  intros H. vm_compute in H. discriminate H.
Qed.

(** C1, amended: for every query that passes validation and whose
    downstream execution raises an exception [e], [execute] returns the
    failure envelope whose error field is [str(e)], the text of that
    exception, unchanged. *)
Theorem C1_error_field_is_exception_text
    {W : Type} (conn : connection W) (self : QueryExecutor) (q : pystr)
    (params : pyval) (database : option pystr) (w w' : W) (e : exn) :
  validate_query (validator self) q true = inr tt ->
  conn q (as_tuple params) w = (inl e, w') ->
  exists env : dict,
    result_of (run conn (execute self q params database) w) = inr env
    /\ env !! "success" = Some (PBool false)
    /\ env !! "error" = Some (PStr (exn_text e))
    /\ env !! "data" = Some PNone
    /\ env !! "rows_affected" = Some PNone.
Proof.
  intros Hv Hc. rewrite (run_execute_raises _ _ _ _ _ _ _ _ Hv Hc).
  by exists (error_envelope (exn_text e)).
Qed.

Lemma C1_error_field_is_exception_text_witness :
  exists env : dict,
    result_of
      (run (conn_raising (u "Table 'shop.orders' doesn't exist"))
           (execute (executor_with false false false)
              (u "SELECT * FROM orders") PNone None) tt) = inr env
    /\ env !! "success" = Some (PBool false)
    /\ env !! "error" = Some (PStr (u "Table 'shop.orders' doesn't exist"))
    /\ env !! "data" = Some PNone
    /\ env !! "rows_affected" = Some PNone.
Proof.
  apply (C1_error_field_is_exception_text
           (conn_raising (u "Table 'shop.orders' doesn't exist"))
           (executor_with false false false) (u "SELECT * FROM orders")
           PNone None tt tt
           {| exn_class := "OperationalError";
              exn_text := u "Table 'shop.orders' doesn't exist" |});
    reflexivity.
Defined.

(** C2: for every query, parameters and database, [execute] returns an
    envelope and raises nothing, whatever the validator decides and
    whatever the connection manager returns or raises.  In the envelope,
    success true leaves the error absent, and success false comes with
    data and rows_affected both None.  [format_query_result] accepts every
    such envelope, keeps its success field, and in what it returns success
    true leaves the error absent while success false leaves data and
    rows_affected absent. *)
Theorem C2_execute_always_returns_envelope
    {W : Type} (conn : connection W) (self : QueryExecutor) (q : pystr)
    (params : pyval) (database : option pystr) (w : W) :
  exists (env : dict) (success : bool),
    result_of (run conn (execute self q params database) w) = inr env
    /\ env !! "success" = Some (PBool success)
    /\ (success = true -> env !! "error" = None)
    /\ (success = false ->
        env !! "data" = Some PNone /\ env !! "rows_affected" = Some PNone)
    /\ exists out : dict,
         format_query_result env = inr out
         /\ out !! "success" = Some (PBool success)
         /\ (success = true -> out !! "error" = None)
         /\ (success = false ->
             out !! "data" = None /\ out !! "rows_affected" = None).
Proof.
  destruct (validate_query (validator self) q true) as [e|[]] eqn:Hv.
  { rewrite (run_execute_rejected _ _ _ _ _ _ _ Hv).
    exists (error_envelope (exn_text e)), false.
    repeat split; try done.
    eexists. rewrite format_error_envelope. by repeat split. }
  destruct (conn q (as_tuple params) w) as [[e|result] w'] eqn:Hc.
  { rewrite (run_execute_raises _ _ _ _ _ _ _ _ Hv Hc).
    exists (error_envelope (exn_text e)), false.
    repeat split; try done.
    eexists. rewrite format_error_envelope. by repeat split. }
  rewrite (run_execute_returns _ _ _ _ _ _ _ _ Hv Hc).
  destruct (bool_decide (get_query_type q = SELECT)).
  - destruct (format_success_envelope result PNone) as (md & Hf).
    eexists _, true. split; [reflexivity|]. repeat split; try done.
    eexists. split; [exact Hf|]. by repeat split.
  - destruct (format_success_envelope PNone result) as (md & Hf).
    eexists _, true. split; [reflexivity|]. repeat split; try done.
    eexists. split; [exact Hf|]. by repeat split.
Qed.

(** C3, as stated, does not hold for the category OTHER: SHOW TABLES is
    OTHER, validates and executes, and the rows the connection manager
    returns are placed under rows_affected while data is None. *)
Lemma C3_other_result_goes_to_rows_affected :
  exists env : dict,
    get_query_type (u "SHOW TABLES") = OTHER
    /\ result_of
         (run (conn_returning
                 (PList [PDict {[ "Tables_in_shop" := PStr (u "orders") ]}]))
              (execute (executor_with false false false) (u "SHOW TABLES")
                 PNone None) tt) = inr env
    /\ env !! "success" = Some (PBool true)
    /\ env !! "data" = Some PNone
    /\ env !! "rows_affected"
       = Some (PList [PDict {[ "Tables_in_shop" := PStr (u "orders") ]}]).
Proof. eexists. repeat split; reflexivity. Qed.

(** C3, amended: for every query that validates and executes
    successfully, the envelope has success true; if the category is
    SELECT, data is the returned value and rows_affected is None; if the
    category is INSERT, UPDATE, DELETE or OTHER, rows_affected is the
    returned value and data is None. *)
Theorem C3_envelope_by_category
    {W : Type} (conn : connection W) (self : QueryExecutor) (q : pystr)
    (params : pyval) (database : option pystr) (w w' : W) (result : pyval) :
  validate_query (validator self) q true = inr tt ->
  conn q (as_tuple params) w = (inr result, w') ->
  exists env : dict,
    result_of (run conn (execute self q params database) w) = inr env
    /\ env !! "success" = Some (PBool true)
    /\ (get_query_type q = SELECT ->
        env !! "data" = Some result /\ env !! "rows_affected" = Some PNone)
    /\ (get_query_type q = INSERT \/ get_query_type q = UPDATE
        \/ get_query_type q = DELETE \/ get_query_type q = OTHER ->
        env !! "rows_affected" = Some result /\ env !! "data" = Some PNone).
Proof.
  intros Hv Hc. rewrite (run_execute_returns _ _ _ _ _ _ _ _ Hv Hc).
  eexists. split; [reflexivity|]. case_bool_decide as E.
  - split; [done|]. split; [done|].
    intros H. rewrite E in H. by destruct H as [|[|[|]]].
  - split; [done|]. split; [by intros H|done].
Qed.

Lemma C3_envelope_by_category_witness :
  exists env : dict,
    result_of
      (run (conn_returning (PInt 3))
           (execute (executor_with false false true)
              (u "DELETE FROM sessions WHERE expired = 1") PNone None) tt)
    = inr env
    /\ env !! "success" = Some (PBool true)
    /\ (get_query_type (u "DELETE FROM sessions WHERE expired = 1") = SELECT ->
        env !! "data" = Some (PInt 3) /\ env !! "rows_affected" = Some PNone)
    /\ (get_query_type (u "DELETE FROM sessions WHERE expired = 1") = INSERT
        \/ get_query_type (u "DELETE FROM sessions WHERE expired = 1") = UPDATE
        \/ get_query_type (u "DELETE FROM sessions WHERE expired = 1") = DELETE
        \/ get_query_type (u "DELETE FROM sessions WHERE expired = 1") = OTHER ->
        env !! "rows_affected" = Some (PInt 3) /\ env !! "data" = Some PNone).
Proof.
  apply (C3_envelope_by_category (conn_returning (PInt 3))
           (executor_with false false true)
           (u "DELETE FROM sessions WHERE expired = 1") PNone None tt tt
           (PInt 3)); reflexivity.
Defined.

(** C4: a query text in which a semicolon is followed, after optional
    whitespace, by a non-whitespace character is rejected by
    [validate_query] with the multiple-statements message, whatever the
    validator's flags and the category of the text; [execute] then returns
    the failure envelope carrying that message without calling the
    connection manager.  A text [a ++ ";" ++ ws] whose only semicolon is
    followed by whitespace [ws] alone (possibly none) is not rejected with
    that message. *)
Theorem C4_second_statement_rejected
    {W : Type} (conn : connection W) (self : QueryExecutor) (q : pystr)
    (params : pyval) (database : option pystr) (allow_write : bool) (w : W)
    (a ws : pystr) :
  (has_second_statement q ->
     validate_query (validator self) q allow_write
       = inl (ValueError msg_multi)
     /\ run conn (execute self q params database) w
        = (inr (error_envelope msg_multi), w,
           [EvLogError (u "Query execution failed: " ++ msg_multi) q]))
  /\ (~ In 59 a -> Forall (fun x => is_space x = true) ws ->
      search multi_statement_pattern (a ++ 59 :: ws) = false
      /\ validate_query (validator self) (a ++ 59 :: ws) allow_write
         <> inl (ValueError msg_multi)).
Proof.
  split.
  - intros H. apply search_multi_statement in H. split.
    + by apply validate_query_multi.
    + apply (run_execute_rejected conn self q params database
               (ValueError msg_multi)).
      by apply validate_query_multi.
  - intros Ha Hws. pose proof (trailing_semicolon a ws Ha Hws) as H. split.
    + by apply search_multi_statement_false.
    + by rewrite validate_query_structural.
Qed.

Lemma C4_second_statement_rejected_witness :
  (validate_query (validator (executor_with true true true))
     (u "SELECT * FROM users; DROP TABLE users;") true
   = inl (ValueError msg_multi)
   /\ run (conn_returning (PList []))
        (execute (executor_with true true true)
           (u "SELECT * FROM users; DROP TABLE users;") PNone None) tt
      = (inr (error_envelope msg_multi), tt,
         [EvLogError (u "Query execution failed: " ++ msg_multi)
            (u "SELECT * FROM users; DROP TABLE users;")]))
  /\ (search multi_statement_pattern (u "SELECT * FROM users" ++ 59 :: u "  ")
      = false
      /\ validate_query (validator (executor_with true true true))
           (u "SELECT * FROM users" ++ 59 :: u "  ") true
         <> inl (ValueError msg_multi)).
Proof.
  pose proof (C4_second_statement_rejected (conn_returning (PList []))
                (executor_with true true true)
                (u "SELECT * FROM users; DROP TABLE users;")
                PNone None true tt (u "SELECT * FROM users") (u "  "))
    as [H1 H2].
  split.
  - apply H1.
    exists (u "SELECT * FROM users"), (u " "), 68, (u "ROP TABLE users;").
    split; [reflexivity|]. split; [by repeat constructor|reflexivity].
  - apply H2.
    + intros Hin. vm_compute in Hin.
      repeat (destruct Hin as [Hin|Hin]; [discriminate Hin|]). exact Hin.
    + by repeat constructor.
Defined.

(** C5: a single-statement query that [get_query_type] classifies as DDL
    (its stripped text starts, in any letter case, with CREATE, DROP,
    ALTER, TRUNCATE or RENAME followed by whitespace) is rejected by
    [validate_query] with the DDL message whatever the three permission
    flags are; [execute] returns the failure envelope with that message,
    and the connection manager is not called. *)
Theorem C5_ddl_always_rejected
    {W : Type} (conn : connection W) (self : QueryExecutor) (q : pystr)
    (params : pyval) (database : option pystr) (allow_write : bool) (w : W) :
  ~ has_second_statement q ->
  get_query_type q = DDL ->
  shape DDL (strip q)
  /\ validate_query (validator self) q allow_write = inl (ValueError msg_ddl)
  /\ run conn (execute self q params database) w
     = (inr (error_envelope msg_ddl), w,
        [EvLogError (u "Query execution failed: " ++ msg_ddl) q])
  /\ downstream_calls
       (trace_of (run conn (execute self q params database) w)) = [].
Proof.
  intros Hs Hq. apply search_multi_statement_false in Hs.
  assert (Hv : forall aw, validate_query (validator self) q aw
                          = inl (ValueError msg_ddl)).
  { intros aw. rewrite validate_query_single by done. by rewrite Hq. }
  split; [by apply get_query_type_shape|]. split; [apply Hv|].
  rewrite (run_execute_rejected _ _ _ _ _ _ _ (Hv true)). done.
Qed.

Lemma C5_ddl_always_rejected_witness :
  shape DDL (strip (u "  drop TABLE users"))
  /\ validate_query (validator (executor_with true true true))
       (u "  drop TABLE users") true = inl (ValueError msg_ddl)
  /\ run (conn_returning (PInt 0))
       (execute (executor_with true true true) (u "  drop TABLE users")
          PNone None) tt
     = (inr (error_envelope msg_ddl), tt,
        [EvLogError (u "Query execution failed: " ++ msg_ddl)
           (u "  drop TABLE users")])
  /\ downstream_calls
       (trace_of
          (run (conn_returning (PInt 0))
             (execute (executor_with true true true) (u "  drop TABLE users")
                PNone None) tt)) = [].
Proof.
  apply (C5_ddl_always_rejected (conn_returning (PInt 0))
           (executor_with true true true) (u "  drop TABLE users")
           PNone None true tt).
  - apply search_multi_statement_false. reflexivity.
  - reflexivity.
Defined.

(** C6: for a single-statement query of a write category (INSERT, UPDATE
    or DELETE), [validate_query] denies it exactly when the permission
    flag of that category is false, and accepts it exactly when the flag
    is true.  Setting the flag of a write category changes the decision on
    no query of any other category. *)
Theorem C6_write_needs_its_flag
    (self : QueryValidator) (q : pystr) (c : QueryType) :
  ~ has_second_statement q ->
  is_write c ->
  get_query_type q = c ->
  (validate_query self q true = inr tt <-> flag_of c self = true)
  /\ (validate_query self q true
        = inl (ValueError (QueryType_value c ++ u " operations are not allowed"))
      <-> flag_of c self = false)
  /\ (forall b, flag_of c (set_flag c b self) = b)
  /\ (forall (q' : pystr) (b allow_write : bool),
        get_query_type q' <> c ->
        validate_query (set_flag c b self) q' allow_write
        = validate_query self q' allow_write).
Proof.
  intros Hs Hc Hq. apply search_multi_statement_false in Hs.
  rewrite (validate_query_single self q true Hs), Hq.
  assert (Hother : forall (q' : pystr) (b allow_write : bool),
            get_query_type q' <> c ->
            validate_query (set_flag c b self) q' allow_write
            = validate_query self q' allow_write).
  { intros q' b aw Hq'. unfold validate_query.
    destruct (search multi_statement_pattern q'); [done|].
    destruct Hc as [-> | [-> | ->]]; destruct (get_query_type q'); done. }
  destruct self as [i up d].
  destruct Hc as [-> | [-> | ->]]; simpl;
    [destruct i|destruct up|destruct d]; simpl;
    (split; [by split|]); (split; [by split|]); (split; [done|]);
    exact Hother.
Qed.

Lemma C6_write_needs_its_flag_witness :
  validate_query {| allow_insert := true; allow_update := true;
                    allow_delete := false |} (u "DELETE FROM users") true
  = inl (ValueError (u "DELETE operations are not allowed"))
  /\ validate_query {| allow_insert := false; allow_update := false;
                       allow_delete := true |} (u "DELETE FROM users") true
     = inr tt.
Proof.
  split.
  - destruct (C6_write_needs_its_flag
                {| allow_insert := true; allow_update := true;
                   allow_delete := false |} (u "DELETE FROM users") DELETE)
      as (_ & H & _).
    + apply search_multi_statement_false. reflexivity.
    + right. right. reflexivity.
    + reflexivity.
    + apply H. reflexivity.
  - destruct (C6_write_needs_its_flag
                {| allow_insert := false; allow_update := false;
                   allow_delete := true |} (u "DELETE FROM users") DELETE)
      as (H & _).
    + apply search_multi_statement_false. reflexivity.
    + right. right. reflexivity.
    + reflexivity.
    + apply H. reflexivity.
Defined.

(** [get_query_type] in terms of the patterns and of [strip]: the
    category of the first pattern, in the order SELECT, INSERT, UPDATE,
    DELETE, DDL, that matches at the start of the stripped text, and OTHER
    when none does; a pattern matches exactly the texts of its shape; the
    category is unique, and whitespace around the text does not change
    it. *)
Lemma get_query_type_first_shape (q : pystr) :
  get_query_type q = first_match patterns (strip q)
  /\ (forall (c : QueryType) (pattern : regex),
        In (c, pattern) patterns ->
        (match_ pattern (strip q) = true <-> shape c (strip q)))
  /\ classify (strip q) (get_query_type q)
  /\ (forall c : QueryType, classify (strip q) c -> c = get_query_type q)
  /\ (forall ws : pystr,
        Forall (fun x => is_space x = true) ws ->
        get_query_type (ws ++ q) = get_query_type q
        /\ get_query_type (q ++ ws) = get_query_type q).
Proof.
  pose proof (no_leading_space_strip q) as Ht.
  split; [done|]. split; [|split; [|split]].
  - intros c pattern Hin. simpl in Hin.
    destruct Hin as [E|[E|[E|[E|[E|[]]]]]]; injection E as <- <-.
    + by apply match_pattern_SELECT.
    + by apply match_pattern_kw.
    + by apply match_pattern_kw.
    + by apply match_pattern_kw.
    + by apply match_pattern_DDL.
  - apply get_query_type_classify.
  - intros c Hc.
    apply (classify_functional (strip q)); [done|apply get_query_type_classify].
  - intros ws Hws. split.
    + by apply get_query_type_leading.
    + by apply get_query_type_trailing.
Qed.

(** C7, as amended: every query text is whitespace, a text with no
    whitespace at either end, whitespace; and [get_query_type] returns the
    first category, in the order SELECT, INSERT, UPDATE, DELETE, DDL,
    whose shape that middle text has at its start, OTHER when it has
    none: exactly one category.  The shapes: for SELECT, the keyword
    SELECT and a whitespace character, possibly after WITH, whitespace,
    any text without a line feed (a clause or not) and whitespace; for
    INSERT, UPDATE and DELETE, the keyword and a whitespace character; for
    DDL, one of CREATE, DROP, ALTER, TRUNCATE, RENAME and a whitespace
    character.  A keyword is spelled in upper or lower case letters, and
    U+0130, U+0131 stand for I, U+017F for S. *)
Theorem C7_category_of_trimmed_text (q ws1 t ws2 : pystr) :
  (exists ws1' t' ws2' : pystr,
     q = ws1' ++ t' ++ ws2'
     /\ Forall whitespace ws1' /\ Forall whitespace ws2' /\ trimmed t')
  /\ (q = ws1 ++ t ++ ws2 ->
      Forall whitespace ws1 -> Forall whitespace ws2 -> trimmed t ->
      text_category t (get_query_type q)
      /\ (forall c : QueryType, text_category t c -> c = get_query_type q)).
Proof.
  split.
  - destruct (strip_decomposition q) as (w1 & w2 & H).
    by exists w1, (strip q), w2.
  - intros -> H1 H2 Ht.
    pose proof (get_query_type_classify (ws1 ++ t ++ ws2)) as Hc.
    rewrite (strip_between ws1 t ws2 H1 H2 Ht) in Hc. split.
    + by apply text_category_classify.
    + intros c Hcat. apply text_category_classify in Hcat.
      by apply (classify_functional t).
Qed.

Lemma C7_category_of_trimmed_text_witness :
  text_category (u "SeLeCt * FrOm users") SELECT
  /\ text_category (0x131 :: u "nsert into t values (1)") INSERT.
Proof.
  split.
  - destruct (C7_category_of_trimmed_text
                (u "  " ++ u "SeLeCt * FrOm users" ++ [10; 32])
                (u "  ") (u "SeLeCt * FrOm users") [10; 32]) as (_ & H).
    destruct H as (H & _).
    + reflexivity.
    + cbv [u]; simpl.
      repeat (apply List.Forall_cons; [unfold whitespace; lia|]).
      apply List.Forall_nil.
    + cbv [u]; simpl.
      repeat (apply List.Forall_cons; [unfold whitespace; lia|]).
      apply List.Forall_nil.
    + split.
      * intros a s [= <- _]. unfold whitespace; lia.
      * intros s c E. apply (f_equal (@rev N)) in E.
        rewrite rev_unit in E. injection E as <- _. unfold whitespace; lia.
    + exact H.
  - destruct (C7_category_of_trimmed_text
                (9 :: 0x131 :: u "nsert into t values (1)")
                [9] (0x131 :: u "nsert into t values (1)") []) as (_ & H).
    destruct H as (H & _).
    + reflexivity.
    + cbv [u]; simpl.
      repeat (apply List.Forall_cons; [unfold whitespace; lia|]).
      apply List.Forall_nil.
    + constructor.
    + split.
      * intros a s [= <- _]. unfold whitespace; lia.
      * intros s c E. apply (f_equal (@rev N)) in E.
        rewrite rev_unit in E. injection E as <- _. unfold whitespace; lia.
    + exact H.
Defined.

(** C7, as first worded, has the WITH clause of a query decide for SELECT
    and a leading keyword suffice.  A clause that runs over several lines
    is not seen, and the query is OTHER; any one-line text between WITH
    and a later SELECT is taken for a clause, so that a WITH query that
    inserts is SELECT; and SELECT with only whitespace after it, which is
    trimmed, is OTHER. *)
Lemma C7_with_clause_is_one_line_of_text :
  get_query_type
    (u "WITH cte" ++ 10 :: u "AS (SELECT 1)" ++ 10 :: u "SELECT * FROM cte")
  = OTHER
  /\ get_query_type
       (u "WITH x AS (SELECT 1) INSERT INTO t SELECT * FROM x") = SELECT
  /\ get_query_type (u "SELECT   ") = OTHER.
Proof. by vm_compute. Qed.

(** C9: a query text that is exactly one keyword of the patterns, in any
    letter case and with nothing after it, is classified OTHER, and
    [validate_query] accepts it whatever the permission flags are. *)
Theorem C9_bare_keyword_is_other
    (self : QueryValidator) (kw : string) (q : pystr) (allow_write : bool) :
  In kw sql_keywords ->
  ci_eq (u kw) q ->
  get_query_type q = OTHER /\ validate_query self q allow_write = inr tt.
Proof.
  intros Hin Hq. pose proof (keyword_plain kw q Hin Hq) as Hp.
  assert (Ho : get_query_type q = OTHER).
  { apply get_query_type_no_space. eapply Forall_impl; [exact Hp|].
    by intros c [? _]. }
  split; [done|].
  rewrite validate_query_single, Ho; [done|].
  apply search_multi_statement_false, no_semicolon.
  intros H59. rewrite Forall_forall in Hp.
  by destruct (Hp 59 ltac:(by apply list_elem_of_In)) as [_ ?].
Qed.

Lemma C9_bare_keyword_is_other_witness :
  (get_query_type (u "DELETE") = OTHER
   /\ validate_query {| allow_insert := false; allow_update := false;
                        allow_delete := false |} (u "DELETE") true = inr tt)
  /\ (get_query_type (u "drop") = OTHER
      /\ validate_query {| allow_insert := false; allow_update := false;
                           allow_delete := false |} (u "drop") true = inr tt).
Proof.
  split.
  - apply (C9_bare_keyword_is_other _ "DELETE").
    + simpl. tauto.
    + by repeat constructor.
  - apply (C9_bare_keyword_is_other _ "DROP").
    + simpl. tauto.
    + by repeat constructor.
Defined.

(** C10: [_add_database_prefix] returns its query argument unchanged, for
    every query and database name; so [execute] is the same computation,
    and every run of it gives the same result, changes the world the same
    way and makes the same calls, whether a database is supplied or not. *)
Theorem C10_database_argument_ignored
    (self : QueryExecutor) (q db : pystr) (params : pyval)
    (database : option pystr) :
  _add_database_prefix self q db = q
  /\ execute self q params database = execute self q params None
  /\ (forall (W : Type) (conn : connection W) (w : W),
        run conn (execute self q params database) w
        = run conn (execute self q params None) w).
Proof.
  split; [done|]. split; [apply execute_database|].
  intros W conn w. by rewrite execute_database.
Qed.

(** ** The admission limiter *)

Module AdmissionLimiterFacts.

Import AdmissionLimiter.
Open Scope Z_scope.

Implicit Types (cfg : Config) (st : LimiterState) (now hi : Z)
  (table : gmap Identity LimiterState) (calls : list (Identity * Z)).

(** A check touches the state of its own identity only. *)
Lemma checkAndRecord_other cfg (a b : Identity) now table :
  a <> b -> (checkAndRecord cfg a now table).2 !! b = table !! b.
Proof.
  intros Hab. unfold checkAndRecord.
  destruct (check_state _ _ _) as [answer st']. simpl.
  by rewrite lookup_insert_ne.
Qed.

Lemma checkAndRecord_same cfg (a : Identity) now table :
  (checkAndRecord cfg a now table).2 !! a
  = Some (check_state cfg now (default fresh (table !! a))).2.
Proof.
  unfold checkAndRecord.
  destruct (check_state _ _ _) as [answer st']. simpl.
  by rewrite lookup_insert_eq.
Qed.

Lemma checkAndRecord_answer cfg (a : Identity) now table :
  (checkAndRecord cfg a now table).1
  = (check_state cfg now (default fresh (table !! a))).1.
Proof.
  unfold checkAndRecord. by destruct (check_state _ _ _) as [answer st'].
Qed.

(** In a history, the state of an identity is the one its own checks
    produce. *)
Lemma run_checks_project cfg (a : Identity) calls table :
  default fresh (run_checks cfg calls table !! a)
  = run_state cfg (checks_of a calls) (default fresh (table !! a)).
Proof.
  revert table. induction calls as [|[i now] calls IH]; intros table.
  - done.
  - simpl. rewrite IH. unfold checks_of. destruct (decide (i = a)) as [->|Hi].
    + rewrite filter_cons_True by done. simpl.
      by rewrite checkAndRecord_same.
    + rewrite filter_cons_False by done.
      by rewrite checkAndRecord_other.
Qed.

(** A check made no later than [now] purges nothing of the minute that
    ends at [now]. *)
Lemma in_last_minute_purge now t (ts : list Z) :
  t <= now -> in_last_minute now (purge 60 t ts) = in_last_minute now ts.
Proof.
  intros Ht. unfold in_last_minute, purge.
  induction ts as [|x ts IH]; [done|].
  destruct (decide (t - 60 < x)) as [Hx|Hx].
  - rewrite (filter_cons_True (fun y => t - 60 < y)) by done.
    destruct (decide (now - 60 < x)).
    + rewrite !(filter_cons_True (fun y => now - 60 < y)) by done.
      by rewrite IH.
    + rewrite !(filter_cons_False (fun y => now - 60 < y)) by done.
      by rewrite IH.
  - rewrite (filter_cons_False (fun y => t - 60 < y)) by done.
    rewrite (filter_cons_False (fun y => now - 60 < y)) by lia.
    by rewrite IH.
Qed.

(** What one check adds to the minute that ends at [now]: its own time
    when it is admitted, nothing when it is denied. *)
Lemma check_state_last_minute cfg now t st :
  t <= now ->
  in_last_minute now (minute_requests (check_state cfg t st).2)
  = in_last_minute now (if (check_state cfg t st).1.1 then [t] else [])
    ++ in_last_minute now (minute_requests st).
Proof.
  intros Ht. unfold check_state.
  destruct (in_cooldown t st) as [expiry|]; [done|]. cbv zeta.
  repeat case_bool_decide; simpl.
  - by apply in_last_minute_purge.
  - by apply in_last_minute_purge.
  - rewrite <- (in_last_minute_purge now t (minute_requests st)) by done.
    unfold in_last_minute.
    destruct (decide (now - 60 < t)).
    + by rewrite !filter_cons_True by done.
    + by rewrite !filter_cons_False by done.
Qed.

Lemma in_last_minute_app now (l1 l2 : list Z) :
  in_last_minute now (l1 ++ l2)
  = in_last_minute now l1 ++ in_last_minute now l2.
Proof. apply filter_app. Qed.

(** After a history that ends no later than [now], the minute window of an
    identity holds, of the minute that ends at [now], what it held before
    and the times of its admitted checks. *)
Lemma run_checks_last_minute cfg (a : Identity) now calls table :
  Forall (fun c => c.1 = a -> c.2 <= now) calls ->
  length (in_last_minute now
            (minute_requests (default fresh (run_checks cfg calls table !! a))))
  = (length (in_last_minute now (admitted_times cfg a calls table))
     + length (in_last_minute now
                 (minute_requests (default fresh (table !! a)))))%nat.
Proof.
  intros Hc. revert table.
  induction Hc as [|[i t] calls Hit _ IH]; intros table; [done|].
  cbn [run_checks admitted_times]. rewrite IH, in_last_minute_app, length_app.
  destruct (decide (i = a)) as [->|Hi].
  - rewrite bool_decide_eq_true_2 by done.
    rewrite checkAndRecord_same, checkAndRecord_answer.
    cbn [default from_option id andb].
    rewrite check_state_last_minute by (by apply Hit).
    rewrite length_app. lia.
  - rewrite bool_decide_eq_false_2 by done.
    rewrite checkAndRecord_other by done. cbn [andb]. simpl length. lia.
Qed.

(** A full minute window denies, in cooldown or not. *)
Lemma check_state_denied cfg now st :
  (max_per_minute cfg
   <= length (in_last_minute now (minute_requests st)))%nat ->
  exists retry, (check_state cfg now st).1 = (false, Some retry).
Proof.
  intros HN. unfold check_state.
  destruct (in_cooldown now st) as [expiry|]; [by eexists|]. cbv zeta.
  case_bool_decide as Hm; [by eexists|].
  unfold in_last_minute in HN. unfold purge in Hm. lia.
Qed.

(** Windows below both maxima and no cooldown admit. *)
Lemma check_state_admitted cfg now st :
  cooldown_until st = None ->
  (length (minute_requests st) < max_per_minute cfg)%nat ->
  (length (hour_requests st) < max_per_hour cfg)%nat ->
  check_state cfg now st
  = ((true, None),
     {| minute_requests := now :: purge 60 now (minute_requests st);
        hour_requests := now :: purge 3600 now (hour_requests st);
        concurrent_slots := concurrent_slots st;
        cooldown_until := None |}).
Proof.
  intros Hcd Hm Hh. unfold check_state, in_cooldown. rewrite Hcd. cbv zeta.
  pose proof (length_filter (fun t => now - 60 < t) (minute_requests st)).
  pose proof (length_filter (fun t => now - 3600 < t) (hour_requests st)).
  unfold purge. repeat case_bool_decide; (done || lia).
Qed.

(** Fewer checks than either maximum never fill a window: all of them are
    admitted. *)
Lemma run_state_quiet cfg (times : list Z) (k : nat) st :
  cooldown_until st = None ->
  (length (minute_requests st) <= k)%nat ->
  (length (hour_requests st) <= k)%nat ->
  (k + length times < max_per_minute cfg)%nat ->
  (k + length times < max_per_hour cfg)%nat ->
  cooldown_until (run_state cfg times st) = None
  /\ (length (minute_requests (run_state cfg times st))
      <= k + length times)%nat
  /\ (length (hour_requests (run_state cfg times st))
      <= k + length times)%nat.
Proof.
  revert k st. induction times as [|t times IH]; intros k st Hcd Hm Hh HN HH.
  - simpl. rewrite Nat.add_0_r. done.
  - simpl in *. rewrite check_state_admitted by (done || lia). simpl.
    pose proof (length_filter (fun x => t - 60 < x) (minute_requests st)).
    pose proof (length_filter (fun x => t - 3600 < x) (hour_requests st)).
    replace (k + S (length times))%nat with (S k + length times)%nat by lia.
    apply IH; simpl; unfold purge; (done || lia).
Qed.

End AdmissionLimiterFacts.

Section LimiterClaims.

Import AdmissionLimiter.

(** C8, as amended: with max-requests-per-minute set to N, an identity N
    of whose checks were admitted within the 60 seconds that end now is
    denied at its check now, with a retry-after value; whatever state the
    table started with, whatever the identity did before that minute,
    and whatever other identities did in between.  Checks that were
    denied do not count.  A check is answered from the state the checks
    of its own identity have produced, and changes the state of no other
    identity; so an identity that starts without state and has made
    fewer checks than either maximum is admitted at the same moment. *)
Theorem C8_denied_after_admitted_checks
    (cfg : Config) (table : gmap Identity LimiterState)
    (a b : Identity) (calls : list (Identity * Z)) (now : Z) :
  (Forall (fun c => c.1 = a -> c.2 <= now) calls ->
   (max_per_minute cfg
    <= length (in_last_minute now (admitted_times cfg a calls table)))%nat ->
   exists retry : Z,
     (checkAndRecord cfg a now (run_checks cfg calls table)).1
     = (false, Some retry))
  /\ (checkAndRecord cfg b now (run_checks cfg calls table)).1
     = (check_state cfg now
          (run_state cfg (checks_of b calls) (default fresh (table !! b)))).1
  /\ (table !! b = None ->
      (length (checks_of b calls) < max_per_minute cfg)%nat ->
      (length (checks_of b calls) < max_per_hour cfg)%nat ->
      (checkAndRecord cfg b now (run_checks cfg calls table)).1
      = (true, None))
  /\ (forall (c : Identity) (t : Z) (tbl : gmap Identity LimiterState),
        c <> b -> (checkAndRecord cfg c t tbl).2 !! b = tbl !! b).
Proof.
  split; [|split; [|split]].
  - intros Hc HN. rewrite AdmissionLimiterFacts.checkAndRecord_answer.
    apply AdmissionLimiterFacts.check_state_denied.
    rewrite (AdmissionLimiterFacts.run_checks_last_minute cfg a now) by done.
    lia.
  - by rewrite AdmissionLimiterFacts.checkAndRecord_answer,
      AdmissionLimiterFacts.run_checks_project.
  - intros Hb HN HH.
    rewrite AdmissionLimiterFacts.checkAndRecord_answer,
      AdmissionLimiterFacts.run_checks_project, Hb. simpl default.
    destruct (AdmissionLimiterFacts.run_state_quiet cfg (checks_of b calls)
                0 fresh) as (Hcd & Hm & Hh); [done|simpl; lia..|].
    rewrite AdmissionLimiterFacts.check_state_admitted; [done|done|lia|lia].
  - intros c t tbl Hc. by apply AdmissionLimiterFacts.checkAndRecord_other.
Qed.

Lemma C8_denied_after_admitted_checks_witness :
  (exists retry : Z,
     (checkAndRecord (two_a_minute 10) (Some "client1"%string) 0
        (run_checks (two_a_minute 10)
           [(Some "client1"%string, (-1000)%Z);
            (Some "client1"%string, (-50)%Z);
            (Some "client2"%string, (-45)%Z);
            (Some "client1"%string, (-40)%Z)] ∅)).1
     = (false, Some retry))
  /\ (checkAndRecord (two_a_minute 10) (Some "client2"%string) 0
        (run_checks (two_a_minute 10)
           [(Some "client1"%string, (-1000)%Z);
            (Some "client1"%string, (-50)%Z);
            (Some "client2"%string, (-45)%Z);
            (Some "client1"%string, (-40)%Z)] ∅)).1
     = (true, None).
Proof.
  destruct (C8_denied_after_admitted_checks (two_a_minute 10) ∅
              (Some "client1"%string) (Some "client2"%string)
              [(Some "client1"%string, (-1000)%Z);
               (Some "client1"%string, (-50)%Z);
               (Some "client2"%string, (-45)%Z);
               (Some "client1"%string, (-40)%Z)] 0%Z) as (H1 & _ & H3 & _).
  split.
  - apply H1.
    + repeat constructor; simpl; lia.
    + vm_compute. lia.
  - apply H3; [reflexivity|vm_compute; lia..].
Defined.

(** C8, as first worded, counts every check of the window.  With two
    checks a minute and a cooldown of one second, the checks at -100 and
    -99 are admitted, the one at -59 is denied, the one at -30 is
    admitted: the check at 0 is the third within its trailing 60 seconds,
    and it is admitted.  And a different identity that has itself used up
    its two checks is denied. *)
Lemma C8_denied_checks_are_not_counted :
  in_last_minute 0 (checks_of (Some "client1"%string)
                      [(Some "client1"%string, (-100)%Z);
                       (Some "client1"%string, (-99)%Z);
                       (Some "client1"%string, (-59)%Z);
                       (Some "client1"%string, (-30)%Z)])
  = [(-59)%Z; (-30)%Z]
  /\ (checkAndRecord (two_a_minute 1) (Some "client1"%string) 0
        (run_checks (two_a_minute 1)
           [(Some "client1"%string, (-100)%Z);
            (Some "client1"%string, (-99)%Z);
            (Some "client1"%string, (-59)%Z);
            (Some "client1"%string, (-30)%Z)] ∅)).1
     = (true, None)
  /\ (checkAndRecord (two_a_minute 10) (Some "client2"%string) 0
        (run_checks (two_a_minute 10)
           [(Some "client1"%string, (-50)%Z);
            (Some "client2"%string, (-45)%Z);
            (Some "client1"%string, (-40)%Z);
            (Some "client2"%string, (-35)%Z)] ∅)).1
     = (false, Some 10%Z).
Proof. by vm_compute. Qed.

End LimiterClaims.

(* ===================================================================== *)
(** * Part III.  Further properties of the code                           *)
(* ===================================================================== *)

(** ** [validate_query] beyond the default call *)

Section ValidatorMore.

Implicit Types (self : QueryValidator) (q : pystr).

(** With [allow_write=False] every write category is refused with the
    message that names it, whatever the three flags are; the decision on
    every other query is the one of the default call. *)
Theorem validate_query_without_write_permission self q :
  (~ has_second_statement q -> is_write (get_query_type q) ->
   validate_query self q false
   = inl (ValueError (QueryType_value (get_query_type q)
                        ++ u " operations require write permission")))
  /\ (has_second_statement q \/ ~ is_write (get_query_type q) ->
      validate_query self q false = validate_query self q true).
Proof.
  split.
  - intros Hs Hw. apply search_multi_statement_false in Hs.
    rewrite validate_query_single by done.
    by destruct Hw as [-> | [-> | ->]].
  - intros [Hs|Hw].
    + apply search_multi_statement in Hs. by rewrite !validate_query_multi.
    + destruct (search multi_statement_pattern q) eqn:Hs.
      * by rewrite !validate_query_multi.
      * rewrite !validate_query_single by done. unfold is_write in Hw.
        destruct (get_query_type q); try done; exfalso; apply Hw; auto.
Qed.

Lemma validate_query_without_write_permission_witness :
  validate_query {| allow_insert := true; allow_update := true;
                    allow_delete := true |}
    (u "UPDATE users SET admin = 1") false
  = inl (ValueError (u "UPDATE operations require write permission"))
  /\ validate_query {| allow_insert := true; allow_update := true;
                       allow_delete := true |} (u "SELECT 1 FROM dual") false
     = inr tt.
Proof.
  split.
  - apply (proj1 (validate_query_without_write_permission
                    {| allow_insert := true; allow_update := true;
                       allow_delete := true |}
                    (u "UPDATE users SET admin = 1"))).
    + apply search_multi_statement_false. reflexivity.
    + right. left. reflexivity.
  - rewrite (proj2 (validate_query_without_write_permission
                      {| allow_insert := true; allow_update := true;
                         allow_delete := true |} (u "SELECT 1 FROM dual"))).
    + reflexivity.
    + right. intros [H|[H|H]]; discriminate H.
Defined.

(** Granting more never refuses more: a query accepted by a validator is
    accepted by every validator whose flags are at least as permissive,
    with write permission for the request. *)
Theorem validate_query_monotone self self' q allow_write :
  grants_le self self' ->
  validate_query self q allow_write = inr tt ->
  validate_query self' q true = inr tt.
Proof.
  intros (Hi & Hu & Hd). unfold validate_query.
  destruct (search multi_statement_pattern q); [done|].
  destruct (get_query_type q); simpl; try done; destruct allow_write;
    simpl; try done.
  - destruct (allow_insert self); [by rewrite Hi|done].
  - destruct (allow_update self); [by rewrite Hu|done].
  - destruct (allow_delete self); [by rewrite Hd|done].
Qed.

Lemma validate_query_monotone_witness :
  validate_query {| allow_insert := true; allow_update := true;
                    allow_delete := false |}
    (u "INSERT INTO logs VALUES (1)") true = inr tt.
Proof.
  apply (validate_query_monotone
           {| allow_insert := true; allow_update := false;
              allow_delete := false |}
           {| allow_insert := true; allow_update := true;
              allow_delete := false |}
           (u "INSERT INTO logs VALUES (1)") true).
  - repeat split; simpl; congruence.
  - reflexivity.
Defined.

(** Whatever [validate_query] raises is a [ValueError] whose text is one
    of eight fixed messages; the text of the query is never part of it. *)
Theorem validate_query_messages self q allow_write (e : exn) :
  validate_query self q allow_write = inl e ->
  exn_class e = "ValueError"%string /\ In (exn_text e) validation_messages.
Proof.
  unfold validate_query, validation_messages.
  destruct (search multi_statement_pattern q).
  { intros [= <-]. split; [done|]. simpl. tauto. }
  destruct (get_query_type q); simpl; try done.
  all: try (intros [= <-]; split; [done|]; simpl; tauto).
  all: destruct allow_write; simpl;
    [|intros [= <-]; split; [done|]; cbn; tauto].
  - destruct (allow_insert self); simpl; [done|].
    intros [= <-]. split; [done|]. simpl. tauto.
  - destruct (allow_update self); simpl; [done|].
    intros [= <-]. split; [done|]. simpl. tauto.
  - destruct (allow_delete self); simpl; [done|].
    intros [= <-]. split; [done|]. simpl. tauto.
Qed.

Lemma validate_query_messages_witness :
  exn_class (ValueError (u "DELETE operations are not allowed"))
  = "ValueError"%string
  /\ In (exn_text (ValueError (u "DELETE operations are not allowed")))
        validation_messages.
Proof.
  apply (validate_query_messages
           {| allow_insert := false; allow_update := false;
              allow_delete := false |}
           (u "DELETE FROM users WHERE name = 'x'") true).
  reflexivity.
Defined.

End ValidatorMore.

(** ** The classifier beyond the keywords *)

Section ClassifierMore.

Implicit Types (self : QueryValidator) (q s t : pystr) (r : regex).

Lemma rstrip_snoc s (c : N) :
  is_space c = false -> rstrip (s ++ [c]) = s ++ [c].
Proof.
  intros Hc. unfold rstrip. rewrite rev_unit. simpl. rewrite Hc.
  simpl. by rewrite rev_involutive.
Qed.

(** A text that neither starts nor ends with whitespace is its own
    stripped form. *)
Lemma strip_fixed (a : N) s (c : N) :
  is_space a = false -> is_space c = false ->
  strip (a :: s ++ [c]) = a :: s ++ [c].
Proof.
  intros Ha Hc. unfold strip. simpl. rewrite Ha.
  by rewrite app_comm_cons, rstrip_snoc.
Qed.

(** Whatever one-line text stands between a leading WITH and a later
    SELECT, the query is a SELECT for the validator: a single-statement
    text made of WITH, a space, any text without a line break, a space,
    SELECT, a space and anything that ends in a non-whitespace character
    is classified SELECT and accepted under every setting of the flags
    and of [allow_write]. *)
Theorem with_clause_passes_validation
    self (allow_write : bool) (body tail : pystr) (c : N) :
  Forall (fun x => x <> 10) body ->
  is_space c = false ->
  ~ has_second_statement (u "WITH " ++ body ++ u " SELECT " ++ tail ++ [c]) ->
  get_query_type (u "WITH " ++ body ++ u " SELECT " ++ tail ++ [c]) = SELECT
  /\ validate_query self (u "WITH " ++ body ++ u " SELECT " ++ tail ++ [c])
       allow_write = inr tt.
Proof.
  intros Hbody Hc Hs.
  assert (Hq : get_query_type
                 (u "WITH " ++ body ++ u " SELECT " ++ tail ++ [c]) = SELECT).
  { apply get_query_type_shape; [done|].
    assert (E : u "WITH " ++ body ++ u " SELECT " ++ tail ++ [c]
                = 87 :: (u "ITH " ++ body ++ u " SELECT " ++ tail) ++ [c]).
    { change (u "WITH ") with (87 :: u "ITH "). rewrite <- app_comm_cons.
      f_equal. by rewrite <- !app_assoc. }
    rewrite E, strip_fixed by done. rewrite <- E.
    left. exists (u "WITH"), (u " "), body, (u " "), (u "SELECT " ++ tail ++ [c]).
    split; [reflexivity|].
    split; [by repeat constructor|]. split; [done|].
    split; [by repeat constructor|]. split; [done|]. split; [done|].
    split; [by repeat constructor|].
    exists (u "SELECT"), 32, (tail ++ [c]).
    split; [done|]. split; [by repeat constructor|done]. }
  split; [done|].
  apply search_multi_statement_false in Hs.
  by rewrite validate_query_single, Hq.
Qed.

Lemma with_clause_passes_validation_witness :
  get_query_type
    (u "WITH "
       ++ u "x AS (SELECT 1) DELETE FROM users WHERE id IN ("
       ++ u " SELECT " ++ u "id FROM x" ++ [41]) = SELECT
  /\ validate_query {| allow_insert := false; allow_update := false;
                       allow_delete := false |}
       (u "WITH "
          ++ u "x AS (SELECT 1) DELETE FROM users WHERE id IN ("
          ++ u " SELECT " ++ u "id FROM x" ++ [41]) false = inr tt.
Proof.
  apply (with_clause_passes_validation
           {| allow_insert := false; allow_update := false;
              allow_delete := false |} false
           (u "x AS (SELECT 1) DELETE FROM users WHERE id IN (")
           (u "id FROM x") 41).
  - repeat constructor; discriminate.
  - reflexivity.
  - apply search_multi_statement_false. reflexivity.
Defined.

(** A query whose stripped text is empty, or begins with a character that
    does not fold onto the first letter of a keyword, is OTHER, and
    [validate_query] accepts it when it is a single statement. *)
Lemma first_character_folded_other self (allow_write : bool) q :
  match strip q with
  | [] => True
  | c :: _ => ~ In (casefold c) keyword_initials
  end ->
  get_query_type q = OTHER
  /\ (~ has_second_statement q -> validate_query self q allow_write = inr tt).
Proof.
  intros Hfirst.
  assert (Ho : get_query_type q = OTHER).
  { apply get_query_type_OTHER. intros c' Hs. apply shape_head2 in Hs.
    destruct (strip q) as [|a t]; simpl in Hs.
    - repeat (destruct Hs as [Hs|Hs]; [discriminate Hs|]). done.
    - apply Hfirst. unfold keyword_initials.
      repeat (destruct Hs as [Hs|Hs];
              [injection Hs as _ -> _; simpl; tauto|]).
      done. }
  split; [done|]. intros Hs. apply search_multi_statement_false in Hs.
  by rewrite validate_query_single, Ho.
Qed.

(** A query that is empty or all whitespace, or whose first character
    after the leading whitespace is none of the letters w, s, i, u, d, c,
    a, t, r in either case and none of U+0130, U+0131, U+017F (a comment
    or a parenthesis, for instance), is OTHER.  When it is a single
    statement [validate_query] accepts it under every setting of the
    flags. *)
Theorem first_character_decides_other self (allow_write : bool) q :
  (Forall whitespace q
   \/ exists (ws : pystr) (c : N) (rest : pystr),
        q = ws ++ c :: rest /\ Forall whitespace ws /\ ~ whitespace c
        /\ ~ In c keyword_first_characters) ->
  get_query_type q = OTHER
  /\ (~ has_second_statement q -> validate_query self q allow_write = inr tt).
Proof.
  intros Hq. apply first_character_folded_other.
  destruct Hq as [Hq|(ws & c & rest & -> & Hws & Hc & Hin)].
  - unfold strip. by rewrite lstrip_all_space by (by apply Forall_whitespace).
  - rewrite strip_app_space by (by apply Forall_whitespace).
    apply is_space_not_whitespace in Hc. unfold strip.
    rewrite (lstrip_id (c :: rest) c rest eq_refl Hc).
    destruct (rstrip_head (c :: rest) c rest Hc eq_refl) as (t' & ->).
    intros H. by apply Hin, casefold_initial.
Qed.

Lemma first_character_decides_other_witness :
  (get_query_type (u "  /* audit */ DELETE FROM users") = OTHER
   /\ (~ has_second_statement (u "  /* audit */ DELETE FROM users") ->
       validate_query {| allow_insert := false; allow_update := false;
                         allow_delete := false |}
         (u "  /* audit */ DELETE FROM users") true = inr tt))
  /\ (get_query_type (u "   ") = OTHER
      /\ (~ has_second_statement (u "   ") ->
          validate_query {| allow_insert := false; allow_update := false;
                            allow_delete := false |} (u "   ") true = inr tt)).
Proof.
  split.
  - apply (first_character_decides_other _ true
             (u "  /* audit */ DELETE FROM users")).
    right. exists (u "  "), 47, (u "* audit */ DELETE FROM users").
    split; [reflexivity|]. split; [|split].
    + cbv [u]; simpl.
      repeat (apply List.Forall_cons; [unfold whitespace; lia|]).
      apply List.Forall_nil.
    + unfold whitespace. lia.
    + unfold keyword_first_characters. simpl. lia.
  - apply (first_character_decides_other _ true (u "   ")).
    left. cbv [u]; simpl.
      repeat (apply List.Forall_cons; [unfold whitespace; lia|]).
      apply List.Forall_nil.
Defined.

(** *** Letter case *)

Lemma blind_deriv (f : N -> N) r (c : N) :
  blind f r -> blind f (deriv c r).
Proof.
  induction r as [| |k|r1 IH1 r2 IH2|r1 IH1 r2 IH2|r IH]; simpl; try done.
  - by destruct (mem k c).
  - intros [H1 H2]. destruct (nullable r1); simpl; auto.
  - intros [H1 H2]. auto.
  - intros H. auto.
Qed.

Lemma deriv_blind (f : N -> N) r (c : N) :
  blind f r -> deriv (f c) r = deriv c r.
Proof.
  induction r as [| |k|r1 IH1 r2 IH2|r1 IH1 r2 IH2|r IH]; simpl; try done.
  - intros H. by rewrite H.
  - intros [H1 H2]. by rewrite IH1, IH2.
  - intros [H1 H2]. by rewrite IH1, IH2.
  - intros H. by rewrite IH.
Qed.

Lemma match_blind (f : N -> N) r s :
  blind f r -> match_ r (map f s) = match_ r s.
Proof.
  revert r. induction s as [|c s IH]; intros r Hr; simpl; [done|].
  rewrite (deriv_blind f r c Hr). f_equal. apply IH. by apply blind_deriv.
Qed.

Lemma search_blind (f : N -> N) r s :
  blind f r -> search r (map f s) = search r s.
Proof.
  intros Hr. induction s as [|c s IH].
  - done.
  - cbn [search map]. rewrite IH. f_equal.
    apply (match_blind f r (c :: s) Hr).
Qed.

Lemma lstrip_map (f : N -> N) s :
  (forall c, is_space (f c) = is_space c) ->
  lstrip (map f s) = map f (lstrip s).
Proof.
  intros Hf. induction s as [|c s IH]; simpl; [done|].
  rewrite Hf. by destruct (is_space c).
Qed.

Lemma strip_map (f : N -> N) s :
  (forall c, is_space (f c) = is_space c) ->
  strip (map f s) = map f (strip s).
Proof.
  intros Hf. unfold strip, rstrip.
  by rewrite (lstrip_map f s Hf), <- map_rev, (lstrip_map f _ Hf), map_rev.
Qed.

Lemma blind_word (f : N -> N) (kw : pystr) :
  (forall c, casefold (f c) = casefold c) -> blind f (word_of kw).
Proof.
  intros Hf. induction kw as [|a kw IH]; simpl; [done|].
  split; [|done]. intros c. by rewrite Hf.
Qed.

Lemma blind_patterns (f : N -> N) (c : QueryType) r :
  case_only f -> In (c, r) patterns -> blind f r.
Proof.
  intros Hf Hin.
  assert (Hsp : forall x, is_space (f x) = is_space x) by (intros x; apply Hf).
  assert (Hcf : forall x, casefold (f x) = casefold x) by (intros x; apply Hf).
  assert (Hnl : forall x, (f x =? 10) = (x =? 10)) by (intros x; apply Hf).
  simpl in Hin.
  destruct Hin as [E|[E|[E|[E|[E|[]]]]]]; injection E as <- <-;
    unfold pattern_SELECT, pattern_INSERT, pattern_UPDATE, pattern_DELETE,
      pattern_DDL, pattern_kw, Plus, Opt, Word; simpl blind;
    repeat split; try done; try (by apply blind_word);
    intros x; simpl; by rewrite ?Hsp, ?Hcf, ?Hnl.
Qed.

Lemma first_match_blind (f : N -> N) (ps : list (QueryType * regex)) s :
  (forall c r, In (c, r) ps -> blind f r) ->
  first_match ps (map f s) = first_match ps s.
Proof.
  induction ps as [|[c r] ps IH]; intros Hps; simpl; [done|].
  rewrite (match_blind f r s) by (apply (Hps c); by left).
  rewrite IH; [done|]. intros c' r' Hin. apply (Hps c'). by right.
Qed.

Lemma get_query_type_case_only (f : N -> N) q :
  case_only f -> get_query_type (map f q) = get_query_type q.
Proof.
  intros Hf. unfold get_query_type.
  rewrite strip_map by (intros c; apply Hf).
  apply first_match_blind. intros c r. by apply blind_patterns.
Qed.

Lemma validate_query_case_only (f : N -> N) self q (allow_write : bool) :
  case_only f ->
  validate_query self (map f q) allow_write = validate_query self q allow_write.
Proof.
  intros Hf. unfold validate_query.
  rewrite (get_query_type_case_only f q Hf), search_blind; [done|].
  unfold multi_statement_pattern. simpl.
  repeat split; intros c; simpl; destruct (Hf c) as (Hsp & _ & _ & Hsc);
    by rewrite ?Hsp, ?Hsc.
Qed.

Lemma case_only_ascii_lower : case_only ascii_lower.
Proof.
  intros c. unfold ascii_lower.
  destruct (N.leb_spec 65 c); destruct (N.leb_spec c 90); simpl;
    try done.
  assert (E1 : is_space (c + 32) = false /\ is_space c = false).
  { unfold is_space. split;
      repeat first [ rewrite orb_false_iff | rewrite andb_false_iff
                   | rewrite N.eqb_neq | rewrite N.leb_gt ]; lia. }
  destruct E1 as [-> ->]. split; [done|]. split.
  - unfold casefold, ascii_lower.
    repeat match goal with
           | |- context [?a =? ?b] => destruct (N.eqb_spec a b); try lia
           | |- context [?a <=? ?b] => destruct (N.leb_spec a b); try lia
           end; simpl; lia.
  - split; symmetry.
    + transitivity false; [apply N.eqb_neq; lia|symmetry; apply N.eqb_neq; lia].
    + transitivity false; [apply N.eqb_neq; lia|symmetry; apply N.eqb_neq; lia].
Qed.

Lemma case_only_ascii_upper : case_only ascii_upper.
Proof.
  intros c. unfold ascii_upper.
  destruct (N.leb_spec 97 c); destruct (N.leb_spec c 122); simpl;
    try done.
  assert (E1 : is_space (c - 32) = false /\ is_space c = false).
  { unfold is_space. split;
      repeat first [ rewrite orb_false_iff | rewrite andb_false_iff
                   | rewrite N.eqb_neq | rewrite N.leb_gt ]; lia. }
  destruct E1 as [-> ->]. split; [done|]. split.
  - unfold casefold, ascii_lower.
    repeat match goal with
           | |- context [?a =? ?b] => destruct (N.eqb_spec a b); try lia
           | |- context [?a <=? ?b] => destruct (N.leb_spec a b); try lia
           end; simpl; lia.
  - split; symmetry.
    + transitivity false; [apply N.eqb_neq; lia|symmetry; apply N.eqb_neq; lia].
    + transitivity false; [apply N.eqb_neq; lia|symmetry; apply N.eqb_neq; lia].
Qed.

(** Writing a query in lower case or in upper case changes neither its
    category nor what [validate_query] decides, for every validator:
    keywords, whitespace and semicolons are all that the patterns read. *)
Theorem validation_ignores_letter_case self q (allow_write : bool) :
  get_query_type (map ascii_lower q) = get_query_type q
  /\ get_query_type (map ascii_upper q) = get_query_type q
  /\ validate_query self (map ascii_lower q) allow_write
     = validate_query self q allow_write
  /\ validate_query self (map ascii_upper q) allow_write
     = validate_query self q allow_write.
Proof.
  pose proof case_only_ascii_lower. pose proof case_only_ascii_upper.
  split; [by apply get_query_type_case_only|].
  split; [by apply get_query_type_case_only|].
  split; by apply validate_query_case_only.
Qed.

End ClassifierMore.

(** ** [execute]: what reaches the connection manager and the log *)

Section ExecutorMore.

Context {W : Type}.
Implicit Types (conn : connection W) (self : QueryExecutor) (q : pystr)
  (w : W).

(** [execute] calls the connection manager once when the validator
    accepts the query, with the text of the query as the caller gave it
    (whatever the database argument) and the parameters turned from a
    list into a tuple; it does not call it, and leaves the world as it
    was, when the validator refuses. *)
Theorem execute_calls_connection_once
    conn self q (params : pyval) (database : option pystr) w :
  (validate_query (validator self) q true = inr tt ->
   downstream_calls (trace_of (run conn (execute self q params database) w))
   = [EvExecute q (as_tuple params)])
  /\ (forall e : exn,
        validate_query (validator self) q true = inl e ->
        downstream_calls
          (trace_of (run conn (execute self q params database) w)) = []
        /\ (run conn (execute self q params database) w).1.2 = w).
Proof.
  split.
  - intros Hv. destruct (conn q (as_tuple params) w) as [[e|result] w'] eqn:Hc.
    + by rewrite (run_execute_raises _ _ _ _ _ _ _ _ Hv Hc).
    + by rewrite (run_execute_returns _ _ _ _ _ _ _ _ Hv Hc).
  - intros e Hv. by rewrite (run_execute_rejected _ _ _ _ _ _ _ Hv).
Qed.

(** Every failure is written to the log once, and nothing else is: the
    run of [execute] logs one error record exactly when the envelope has
    success false, and that record carries the text of the query and the
    very error text of the envelope after "Query execution failed: ". *)
Theorem execute_logs_each_failure
    conn self q (params : pyval) (database : option pystr) w :
  exists env : dict,
    result_of (run conn (execute self q params database) w) = inr env
    /\ ((env !! "success" = Some (PBool true)
         /\ List.filter is_EvLogError
              (trace_of (run conn (execute self q params database) w)) = [])
        \/ (exists text : pystr,
              env = error_envelope text
              /\ List.filter is_EvLogError
                   (trace_of (run conn (execute self q params database) w))
                 = [EvLogError (u "Query execution failed: " ++ text) q])).
Proof.
  destruct (validate_query (validator self) q true) as [e|[]] eqn:Hv.
  { rewrite (run_execute_rejected _ _ _ _ _ _ _ Hv).
    eexists. split; [reflexivity|]. right. by exists (exn_text e). }
  destruct (conn q (as_tuple params) w) as [[e|result] w'] eqn:Hc.
  { rewrite (run_execute_raises _ _ _ _ _ _ _ _ Hv Hc).
    eexists. split; [reflexivity|]. right. by exists (exn_text e). }
  rewrite (run_execute_returns _ _ _ _ _ _ _ _ Hv Hc).
  eexists. split; [reflexivity|]. left. by case_bool_decide.
Qed.

End ExecutorMore.

(** ** [format_query_result] on any dict *)

Section FormatMore.

Implicit Types (result out : dict).

Lemma getitem_Some result (key : string) (v : pyval) :
  result !! key = Some v -> getitem result key = inr v.
Proof. intros H. unfold getitem. by rewrite H. Qed.

Lemma getitem_None result (key : string) :
  result !! key = None -> getitem result key = inl (KeyError key).
Proof. intros H. unfold getitem. by rewrite H. Qed.

(** [format_query_result] returns exactly on the dicts that hold the keys
    it reads; on any other it raises [KeyError] for a key that the dict
    lacks, one of success, data, rows_affected and error. *)
Theorem format_query_result_missing_key result :
  ((exists out, format_query_result result = inr out) <-> well_keyed result)
  /\ (forall e : exn,
        format_query_result result = inl e ->
        exists key : string,
          e = KeyError key /\ result !! key = None
          /\ In key ["success"; "data"; "rows_affected"; "error"]%string).
Proof.
  unfold format_query_result, well_keyed.
  destruct (result !! "success") as [s|] eqn:Hs.
  2:{ rewrite (getitem_None _ _ Hs). split.
      - split; [by intros (out & ?)|by intros (s & ? & _)].
      - intros e [= <-]. exists "success"%string. simpl. tauto. }
  rewrite (getitem_Some _ _ _ Hs). destruct (truthy s) eqn:Ht.
  - destruct (result !! "data") as [d|] eqn:Hd.
    2:{ rewrite (getitem_None _ _ Hd). split.
        - split; [by intros (out & ?)|].
          intros (s' & [= <-] & H & _). by destruct (H Ht) as (d & ? & _).
        - intros e [= <-]. exists "data"%string. simpl. tauto. }
    rewrite (getitem_Some _ _ _ Hd).
    destruct (result !! "rows_affected") as [ra|] eqn:Hr.
    + rewrite (getitem_Some _ _ _ Hr). split.
      * split; [|destruct d; eauto].
        intros _. exists s. split; [done|]. split; [|congruence].
        intros _. exists d. split; [done|]. intros _. by exists ra.
      * intros e He. by destruct d.
    + rewrite (getitem_None _ _ Hr). split.
      * split.
        -- intros (out & Ho). exists s. split; [done|]. split; [|congruence].
           intros _. exists d. split; [done|]. intros ->. done.
        -- intros (s' & [= <-] & H & _).
           destruct (H Ht) as (d' & [= <-] & Hd').
           destruct d; eauto. by destruct (Hd' eq_refl).
      * intros e He. destruct d; try done. injection He as <-.
        exists "rows_affected"%string. simpl. tauto.
  - destruct (result !! "error") as [er|] eqn:He.
    + rewrite (getitem_Some _ _ _ He). split; [|done].
      split; [|eauto]. intros _. exists s. split; [done|].
      split; [congruence|]. intros _. by exists er.
    + rewrite (getitem_None _ _ He). split.
      * split; [by intros (out & ?)|].
        intros (s' & [= <-] & _ & H). by destruct (H Ht).
      * intros e [= <-]. exists "error"%string. simpl. tauto.
Qed.

(** What [format_query_result] returns has one of two sets of keys:
    success, message, data and metadata, with success the boolean True
    and the data of the input; or success, error and message, with
    success the boolean False and the error of the input.  The key
    rows_affected is never at the top level, and success is a boolean
    whatever object the input held there. *)
Theorem format_query_result_keys result out :
  format_query_result result = inr out ->
  (out !! "success" = Some (PBool true)
   /\ out !! "message" = Some (PStr (u "Query executed successfully"))
   /\ out !! "data" = result !! "data"
   /\ dom out = ({[ "success"; "message"; "data"; "metadata" ]} : gset string))
  \/ (out !! "success" = Some (PBool false)
      /\ out !! "message" = Some (PStr (u "Query execution failed"))
      /\ out !! "error" = result !! "error"
      /\ dom out = ({[ "success"; "error"; "message" ]} : gset string)).
Proof.
  unfold format_query_result, getitem.
  destruct (result !! "success") as [s|]; [|done].
  destruct (truthy s).
  - destruct (result !! "data") as [d|] eqn:Hd; [|done].
    assert (Hdom : forall (md : pyval),
              dom (<[ "metadata" := md ]>
                     (<[ "data" := d ]>
                        ({[ "success" := PBool true;
                            "message" :=
                              PStr (u "Query executed successfully") ]} : dict)))
              = ({[ "success"; "message"; "data"; "metadata" ]} : gset string)).
    { intros md. rewrite !dom_insert_L, dom_singleton_L. set_solver. }
    destruct d; try (intros [= <-]; left; by rewrite Hdom).
    destruct (result !! "rows_affected") as [ra|]; [|done].
    intros [= <-]. left. by rewrite Hdom.
  - destruct (result !! "error") as [er|] eqn:He; [|done].
    intros [= <-]. right. repeat split; try done.
    all: rewrite !dom_insert_L, dom_singleton_L; set_solver.
Qed.

Lemma format_query_result_keys_witness :
  exists out : dict,
    format_query_result
      {[ "success" := PStr (u "yes"); "data" := PInt 7 ]} = inr out
    /\ out !! "success" = Some (PBool true)
    /\ out !! "rows_affected" = None.
Proof.
  assert (E : format_query_result
                {[ "success" := PStr (u "yes"); "data" := PInt 7 ]}
              = inr (<[ "metadata" :=
                          PDict {[ "row_count" := PInt 0;
                                   "query_type" := PStr (u "SELECT") ]} ]>
                       (<[ "data" := PInt 7 ]>
                          {[ "success" := PBool true;
                             "message" :=
                               PStr (u "Query executed successfully") ]})))
    by reflexivity.
  destruct (format_query_result_keys _ _ E) as [(Hs & _)|(Hs & _)].
  - eexists. split; [exact E|]. split; [exact Hs|reflexivity].
  - discriminate Hs.
Defined.

(** [format_query_result] cannot be applied twice to a write result: what
    it returns for a success without data has no rows_affected key, and
    formatting it again raises [KeyError('rows_affected')].  A formatted
    failure and a formatted result with data are left as they are. *)
Theorem format_query_result_twice result out :
  format_query_result result = inr out ->
  (out !! "data" = Some PNone ->
   format_query_result out = inl (KeyError "rows_affected"))
  /\ (out !! "data" <> Some PNone -> format_query_result out = inr out).
Proof.
  unfold format_query_result at 1. unfold getitem.
  destruct (result !! "success") as [s|]; [|done].
  destruct (truthy s).
  - destruct (result !! "data") as [d|]; [|done].
    destruct d; try (intros [= <-]; split; [intros H; discriminate H|done]).
    destruct (result !! "rows_affected") as [ra|]; [|done].
    intros [= <-]. split; [done|]. intros H. by destruct H.
  - destruct (result !! "error") as [er|]; [|done].
    intros [= <-]. split; [intros H; discriminate H|done].
Qed.

Lemma format_query_result_twice_witness :
  exists out : dict,
    format_query_result
      {[ "success" := PBool true; "data" := PNone;
         "rows_affected" := PInt 2 ]} = inr out
    /\ format_query_result out = inl (KeyError "rows_affected").
Proof.
  eexists. split; [reflexivity|].
  apply (format_query_result_twice
           {[ "success" := PBool true; "data" := PNone;
              "rows_affected" := PInt 2 ]}); reflexivity.
Defined.

End FormatMore.

(** ** [mysql_query] *)

Section ToolFacts.

Implicit Types (environ : gmap string pystr) (q : pystr).

(** The values of an environment variable that switch a flag on: the
    four letters of "true", each in either case. *)
Lemma lower_is_true_spec (value : pystr) :
  lower_is_true value = true <->
  Forall2 (fun k x => x = k \/ x + 32 = k) (u "true") value.
Proof.
  unfold lower_is_true. rewrite bool_decide_eq_true.
  assert (Hc : forall k x : N,
            In k (u "true") -> (ascii_lower x = k <-> x = k \/ x + 32 = k)).
  { intros k x Hk. unfold ascii_lower.
    destruct (N.leb_spec 65 x); destruct (N.leb_spec x 90); simpl;
      vm_compute in Hk; lia. }
  revert Hc. generalize (u "true"). intros lit. revert value.
  induction lit as [|k lit IH]; intros value Hc.
  - split.
    + intros H. destruct value; [constructor|done].
    + by inversion 1.
  - split.
    + destruct value as [|x value]; [done|]. simpl. intros [= Hx Hv].
      constructor.
      * apply Hc; [by left|done].
      * apply IH; [|done]. intros k' x' Hk'. apply Hc. by right.
    + inversion 1 as [|? x ? value' Hx Hv]; subst. simpl. f_equal.
      * apply Hc; [by left|done].
      * apply IH; [|done]. intros k' x' Hk'. apply Hc. by right.
Qed.

(** Without a connection manager, whether none was ever set or it was
    reset with [set_connection_manager(None)], [mysql_query] answers
    "Connection not initialized" for every query: nothing is validated,
    executed or logged, and the world is as it was. *)
Lemma mysql_query_without_manager
    {W : Type} (manager_global : option (connection W)) environ q
    (params : pyval) (database : option pystr) (w : W) :
  mysql_query (set_connection_manager None manager_global) environ q params
    database w
  = (inr not_initialized, w, [])
  /\ mysql_query (None : option (connection W)) environ q params database w
     = (inr not_initialized, w, []).
Proof. done. Qed.

(** [mysql_query] returns a dict on every input and never raises; the
    dict has a boolean success and the message that goes with it, and an
    error text when success is false.  Its own [except] clause never
    runs: no "Unexpected error in mysql_query" record is written. *)
Theorem mysql_query_never_raises
    {W : Type} (manager_global : option (connection W)) environ q
    (params : pyval) (database : option pystr) (w : W) :
  exists (out : dict) (success : bool),
    (mysql_query manager_global environ q params database w).1.1 = inr out
    /\ out !! "success" = Some (PBool success)
    /\ out !! "message"
       = Some (PStr (if success then u "Query executed successfully"
                     else u "Query execution failed"))
    /\ (success = false -> exists text : pystr,
          out !! "error" = Some (PStr text))
    /\ List.filter is_ToolLogError
         (mysql_query manager_global environ q params database w).2 = [].
Proof.
  unfold mysql_query, mysql_query_try, get_connection_manager.
  destruct manager_global as [conn|].
  2:{ exists not_initialized, false. repeat split; try done. eauto. }
  assert (Hlog : forall tr : list event,
            List.filter is_ToolLogError (map ToolExecutor tr) = []).
  { induction tr as [|e tr IH]; [done|]. simpl. exact IH. }
  set (self := {| validator := env_validator environ |}).
  destruct (validate_query (validator self) q true) as [e|[]] eqn:Hv.
  { rewrite (run_execute_rejected _ _ _ _ _ _ _ Hv).
    rewrite format_error_envelope. eexists _, false.
    split; [reflexivity|]. repeat split; try done. eauto. }
  destruct (conn q (as_tuple params) w) as [[e|result] w'] eqn:Hc.
  { rewrite (run_execute_raises _ _ _ _ _ _ _ _ Hv Hc).
    rewrite format_error_envelope. eexists _, false.
    split; [reflexivity|]. repeat split; try done. eauto. }
  rewrite (run_execute_returns _ _ _ _ _ _ _ _ Hv Hc).
  case_bool_decide.
  - destruct (format_success_envelope result PNone) as (md & ->).
    eexists _, true. split; [reflexivity|]. repeat split; done.
  - destruct (format_success_envelope PNone result) as (md & ->).
    eexists _, true. split; [reflexivity|]. repeat split; done.
Qed.

(** What [mysql_query] reports for a query that validates and executes:
    the result is returned as data, labelled SELECT and counted (the
    length of a list, 0 for any other object), only when the category is
    SELECT and the connection manager returned something other than None;
    in every other case, a SELECT that returned None included, data is
    None and the result is reported as the rows affected by a WRITE. *)
Theorem mysql_query_reports_result
    {W : Type} (conn : connection W) environ q (params : pyval)
    (database : option pystr) (w w' : W) (result : pyval) :
  validate_query (env_validator environ) q true = inr tt ->
  conn q (as_tuple params) w = (inr result, w') ->
  exists (out metadata : dict),
    mysql_query (Some conn) environ q params database w
    = (inr out, w', [ToolExecutor (EvExecute q (as_tuple params))])
    /\ out !! "success" = Some (PBool true)
    /\ out !! "metadata" = Some (PDict metadata)
    /\ (get_query_type q = SELECT /\ result <> PNone ->
        out !! "data" = Some result
        /\ metadata !! "query_type" = Some (PStr (u "SELECT"))
        /\ metadata !! "row_count"
           = Some (match result with PList l => PLen l | _ => PInt 0 end))
    /\ (get_query_type q <> SELECT \/ result = PNone ->
        out !! "data" = Some PNone
        /\ metadata !! "query_type" = Some (PStr (u "WRITE"))
        /\ metadata !! "rows_affected" = Some result).
Proof.
  intros Hv Hc. unfold mysql_query, mysql_query_try, get_connection_manager.
  set (self := {| validator := env_validator environ |}).
  rewrite (run_execute_returns conn self _ _ _ _ _ _ Hv Hc).
  case_bool_decide as Hq.
  - destruct result; (eexists _, _; split; [reflexivity|];
      split; [reflexivity|]; split; [reflexivity|]; split;
      [intros [_ Hr]; try done; repeat split; reflexivity
      |intros [Hn|Hr]; try done; repeat split; reflexivity]).
  - eexists _, _. split; [reflexivity|].
    split; [reflexivity|]. split; [reflexivity|]. split.
    + by intros [Hs _].
    + intros _. repeat split; reflexivity.
Qed.

Lemma mysql_query_reports_result_witness :
  exists (out metadata : dict),
    mysql_query (Some (conn_returning (PTuple [PInt 1; PInt 2]))) ∅
      (u "SELECT id FROM users") PNone None tt
    = (inr out, tt, [ToolExecutor (EvExecute (u "SELECT id FROM users") PNone)])
    /\ out !! "metadata" = Some (PDict metadata)
    /\ out !! "data" = Some (PTuple [PInt 1; PInt 2])
    /\ metadata !! "row_count" = Some (PInt 0).
Proof.
  destruct (mysql_query_reports_result
              (conn_returning (PTuple [PInt 1; PInt 2])) ∅
              (u "SELECT id FROM users") PNone None tt tt
              (PTuple [PInt 1; PInt 2]))
    as (out & md & H1 & _ & H3 & H4 & _); [reflexivity|reflexivity|].
  exists out, md. split; [exact H1|]. split; [exact H3|].
  destruct H4 as (Hd & _ & Hr).
  - split; [reflexivity|]. intros H. discriminate H.
  - split; [exact Hd|exact Hr].
Defined.

(** A write query passes [mysql_query] only if the environment variable
    of its category lower-cases to "true".  Otherwise, in particular when
    the variable is not set, the answer is the failure that names the
    category, one record is logged and the connection manager is not
    called; when it is, the connection manager is called with the
    query. *)
Theorem mysql_query_needs_true_in_environment
    {W : Type} (conn : connection W) environ q (c : QueryType)
    (params : pyval) (database : option pystr) (w : W) :
  ~ has_second_statement q ->
  is_write c ->
  get_query_type q = c ->
  (lower_is_true (getenv environ (env_var_of c) (u "false")) = false ->
   mysql_query (Some conn) environ q params database w
   = (inr {[ "success" := PBool false;
             "error" := PStr (QueryType_value c
                                ++ u " operations are not allowed");
             "message" := PStr (u "Query execution failed") ]},
      w,
      [ToolExecutor
         (EvLogError
            (u "Query execution failed: "
               ++ QueryType_value c ++ u " operations are not allowed") q)]))
  /\ (lower_is_true (getenv environ (env_var_of c) (u "false")) = true ->
      exists tr,
        (mysql_query (Some conn) environ q params database w).2
        = ToolExecutor (EvExecute q (as_tuple params)) :: tr)
  /\ (environ !! env_var_of c = None ->
      lower_is_true (getenv environ (env_var_of c) (u "false")) = false).
Proof.
  intros Hs Hw Hq. apply search_multi_statement_false in Hs.
  pose proof (validate_query_single (env_validator environ) q true Hs) as Hv.
  rewrite Hq in Hv. split; [|split].
  - intros Hf.
    assert (Hv' : validate_query (env_validator environ) q true
                  = inl (ValueError (QueryType_value c
                                       ++ u " operations are not allowed"))).
    { rewrite Hv. clear Hv.
      destruct Hw as [-> | [-> | ->]];
        cbn [flag_of env_validator allow_insert allow_update allow_delete
             negb env_var_of] in *;
        by rewrite Hf. }
    unfold mysql_query, mysql_query_try, get_connection_manager.
    set (self := {| validator := env_validator environ |}).
    rewrite (run_execute_rejected conn self _ _ _ _ _ Hv').
    by rewrite format_error_envelope.
  - intros Hf.
    assert (Hv' : validate_query (env_validator environ) q true = inr tt).
    { rewrite Hv. clear Hv.
      destruct Hw as [-> | [-> | ->]];
        cbn [flag_of env_validator allow_insert allow_update allow_delete
             negb env_var_of] in *;
        by rewrite Hf. }
    unfold mysql_query, mysql_query_try, get_connection_manager.
    set (self := {| validator := env_validator environ |}).
    destruct (conn q (as_tuple params) w) as [[e|result] w'] eqn:Hc.
    + rewrite (run_execute_raises conn self _ _ _ _ _ _ Hv' Hc).
      rewrite format_error_envelope. simpl. eauto.
    + rewrite (run_execute_returns conn self _ _ _ _ _ _ Hv' Hc).
      case_bool_decide.
      * destruct (format_success_envelope result PNone) as (md & ->).
        simpl. eauto.
      * destruct (format_success_envelope PNone result) as (md & ->).
        simpl. eauto.
  - intros Hnone. unfold getenv. by rewrite Hnone.
Qed.

Lemma mysql_query_needs_true_in_environment_witness :
  mysql_query (Some (conn_returning (PInt 1)))
    {[ "MYSQL_ALLOW_DELETE" := u "1" ]}
    (u "DELETE FROM users") PNone None tt
  = (inr {[ "success" := PBool false;
            "error" := PStr (u "DELETE operations are not allowed");
            "message" := PStr (u "Query execution failed") ]},
     tt,
     [ToolExecutor
        (EvLogError
           (u "Query execution failed: DELETE operations are not allowed")
           (u "DELETE FROM users"))])
  /\ exists tr,
       (mysql_query (Some (conn_returning (PInt 1)))
          {[ "MYSQL_ALLOW_DELETE" := u "True" ]}
          (u "DELETE FROM users") PNone None tt).2
       = ToolExecutor (EvExecute (u "DELETE FROM users") PNone) :: tr.
Proof.
  split.
  - apply (mysql_query_needs_true_in_environment
             (conn_returning (PInt 1)) {[ "MYSQL_ALLOW_DELETE" := u "1" ]}
             (u "DELETE FROM users") DELETE PNone None tt).
    + apply search_multi_statement_false. reflexivity.
    + right. right. reflexivity.
    + reflexivity.
    + reflexivity.
  - apply (mysql_query_needs_true_in_environment
             (conn_returning (PInt 1)) {[ "MYSQL_ALLOW_DELETE" := u "True" ]}
             (u "DELETE FROM users") DELETE PNone None tt).
    + apply search_multi_statement_false. reflexivity.
    + right. right. reflexivity.
    + reflexivity.
    + reflexivity.
Defined.

End ToolFacts.

(** ** The server tool *)

Section ServerFacts.

Implicit Types (environ : gmap string pystr) (q : pystr).

(** When the connection cannot be established the tool raises: the
    exception of [create_connection_manager] leaves the tool as it came,
    after one error record; no envelope is returned, [mysql_query] is not
    reached, and the flag stays false, so that the next call tries
    again. *)
Theorem server_setup_failure_propagates
    {W : Type} (create : W -> (exn + connection W) * W) environ
    (st : server_state W) q (params : pyval) (database : option pystr)
    (w w' : W) (e : exn) :
  _connection_initialized st = false ->
  create w = (inl e, w') ->
  server_mysql_query create environ st q params database w
  = (inl e,
     {| _connection_initialized := false;
        _connection_manager := _connection_manager st |},
     w',
     [SrvCreate;
      SrvLogError (u "Failed to establish database connection: "
                     ++ exn_text e)]).
Proof.
  intros Hi Hc. unfold server_mysql_query, ensure_connection, setup_connection.
  by rewrite Hi, Hc.
Qed.

Lemma server_setup_failure_propagates_witness :
  server_mysql_query
    (fun w : unit =>
       (inl {| exn_class := "OperationalError";
               exn_text := u "Can't connect to MySQL server" |}, w))
    ∅ {| _connection_initialized := false; _connection_manager := None |}
    (u "SELECT 1") PNone None tt
  = (inl {| exn_class := "OperationalError";
            exn_text := u "Can't connect to MySQL server" |},
     {| _connection_initialized := false; _connection_manager := None |},
     tt,
     [SrvCreate;
      SrvLogError
        (u "Failed to establish database connection: Can't connect to MySQL server")]).
Proof.
  apply (server_setup_failure_propagates
           (fun w : unit =>
              (inl {| exn_class := "OperationalError";
                      exn_text := u "Can't connect to MySQL server" |}, w))
           ∅ {| _connection_initialized := false;
                _connection_manager := None |}
           (u "SELECT 1") PNone None tt tt); reflexivity.
Defined.

Lemma mysql_query_returns
    {W : Type} (g : option (connection W)) environ q (params : pyval)
    (database : option pystr) (w : W) :
  exists out : dict,
    (mysql_query g environ q params database w).1.1 = inr out.
Proof.
  unfold mysql_query.
  destruct (mysql_query_try g environ q params database w) as [[[e|out] w'] tr];
    simpl; eauto.
Qed.

(** Once the flag is set, a call neither creates a connection manager
    nor changes the flag or the manager, and it returns an envelope. *)
Lemma server_mysql_query_initialized
    {W : Type} (create : W -> (exn + connection W) * W) environ
    (st : server_state W) q (params : pyval) (database : option pystr)
    (w : W) :
  _connection_initialized st = true ->
  exists (out : dict) (w' : W) (tr : list server_event),
    server_mysql_query create environ st q params database w
    = (inr out, st, w', tr)
    /\ List.filter is_SrvCreate tr = [].
Proof.
  intros Hi. unfold server_mysql_query, ensure_connection. rewrite Hi. simpl.
  destruct (mysql_query_returns (_connection_manager st) environ q params
              database w) as (out & Ho).
  destruct (mysql_query _ _ _ _ _ _) as [[r w'] tr]. simpl in Ho. subst r.
  exists out, w', (map SrvTool tr). split; [done|].
  clear. induction tr as [|e tr IH]; [done|]. simpl. exact IH.
Qed.

(** The connection manager is created once: when the first call of a
    series establishes the connection, [create_connection_manager] is
    called in that call and in none of the calls after it, however many
    they are; every call returns an envelope, and the manager created
    stays in place. *)
Theorem server_connects_once
    {W : Type} (create : W -> (exn + connection W) * W) environ
    (calls : list (pystr * pyval * option pystr)) q (params : pyval)
    (database : option pystr) (w w1 : W) (g : option (connection W))
    (manager : connection W) :
  create w = (inr manager, w1) ->
  exists (rs : list (exn + dict)) (w' : W) (tr : list server_event),
    server_calls create environ ((q, params, database) :: calls)
      {| _connection_initialized := false; _connection_manager := g |} w
    = (rs,
       {| _connection_initialized := true;
          _connection_manager := Some manager |},
       w', tr)
    /\ List.filter is_SrvCreate tr = [SrvCreate]
    /\ length rs = S (length calls)
    /\ Forall (fun r => exists out : dict, r = inr out) rs.
Proof.
  intros Hc.
  assert (Hrest : forall calls (st : server_state W) (w0 : W),
            _connection_initialized st = true ->
            exists rs w' tr,
              server_calls create environ calls st w0 = (rs, st, w', tr)
              /\ List.filter is_SrvCreate tr = []
              /\ length rs = length calls
              /\ Forall (fun r => exists out : dict, r = inr out) rs).
  { clear. intros calls. induction calls as [|[[q p] d] calls IH];
      intros st w0 Hi.
    - exists [], w0, []. by repeat split.
    - destruct (server_mysql_query_initialized create environ st q p d w0 Hi)
        as (out & w' & tr & E & Htr).
      destruct (IH st w' Hi) as (rs & w'' & tr' & E' & Htr' & Hlen & Hrs).
      exists (inr out :: rs), w'', (tr ++ tr'). simpl. rewrite E, E'.
      split; [done|]. split; [by rewrite List.filter_app, Htr, Htr'|].
      split; [by rewrite Hlen|]. constructor; eauto. }
  assert (Hfirst : exists (out : dict) (w2 : W) (tr0 : list tool_event),
            server_mysql_query create environ
              {| _connection_initialized := false; _connection_manager := g |}
              q params database w
            = (inr out,
               {| _connection_initialized := true;
                  _connection_manager := Some manager |},
               w2,
               [SrvCreate; SrvLogInfo (u "Database connection established")]
                 ++ map SrvTool tr0)).
  { unfold server_mysql_query, ensure_connection, setup_connection.
    simpl. rewrite Hc. unfold set_connection_manager.
    cbn [_connection_manager].
    destruct (mysql_query_returns (Some manager) environ q params database w1)
      as (out & Ho).
    destruct (mysql_query (Some manager) _ _ _ _ _) as [[r w2] tr0].
    simpl in Ho. subst r. by exists out, w2, tr0. }
  destruct Hfirst as (out & w2 & tr0 & E).
  destruct (Hrest calls
              {| _connection_initialized := true;
                 _connection_manager := Some manager |} w2 eq_refl)
    as (rs & w' & tr' & E' & Htr' & Hlen & Hrs).
  cbn [server_calls]. rewrite E, E'.
  eexists (inr out :: rs), w', _. split; [reflexivity|].
  split; [|split; [by simpl; rewrite Hlen|constructor; eauto]].
  rewrite !List.filter_app, Htr', app_nil_r. simpl. f_equal.
  clear. induction tr0 as [|e tr IH]; [done|]. simpl. exact IH.
Qed.

Lemma server_connects_once_witness :
  exists (rs : list (exn + dict)) (w' : unit) (tr : list server_event),
    server_calls (fun w : unit => (inr (conn_returning (PList [])), w)) ∅
      [ (u "SELECT 1", PNone, None); (u "SELECT 2", PNone, None);
        (u "SELECT 3", PNone, None) ]
      {| _connection_initialized := false; _connection_manager := None |} tt
    = (rs,
       {| _connection_initialized := true;
          _connection_manager := Some (conn_returning (PList [])) |},
       w', tr)
    /\ List.filter is_SrvCreate tr = [SrvCreate]
    /\ length rs = 3%nat
    /\ Forall (fun r => exists out : dict, r = inr out) rs.
Proof.
  apply (server_connects_once
           (fun w : unit => (inr (conn_returning (PList [])), w)) ∅
           [ (u "SELECT 2", PNone, None); (u "SELECT 3", PNone, None) ]
           (u "SELECT 1") PNone None tt tt None (conn_returning (PList []))).
  reflexivity.
Defined.

(** The flag is all that [ensure_connection] looks at: if the manager
    is reset to None while the flag is set, every later call answers
    "Connection not initialized", without trying to connect again and
    without any other effect. *)
Theorem server_never_reconnects
    {W : Type} (create : W -> (exn + connection W) * W) environ
    (calls : list (pystr * pyval * option pystr)) (w : W) :
  server_calls create environ calls
    {| _connection_initialized := true;
       _connection_manager := set_connection_manager None None |} w
  = (map (fun _ => inr not_initialized) calls,
     {| _connection_initialized := true; _connection_manager := None |},
     w, []).
Proof.
  unfold set_connection_manager.
  induction calls as [|[[q p] d] calls IH]; [done|].
  cbn [server_calls]. unfold server_mysql_query, ensure_connection.
  cbn [_connection_initialized _connection_manager negb].
  unfold mysql_query, mysql_query_try, get_connection_manager.
  cbn [map app]. by rewrite IH.
Qed.

End ServerFacts.

(** ** Settings *)

Section SettingsFacts.

Import Config.

(** The safe views of the settings do not tell the password: two
    settings that differ in the password alone have the same
    [to_dict_safe] and the same [connection_string_safe].  In
    [to_dict_safe] the password is "***" and every other field is as
    [model_dump] gives it. *)
Theorem settings_safe_views_hide_password (self : Settings) (pw : pystr) :
  to_dict_safe (with_password self pw) = to_dict_safe self
  /\ connection_string_safe (with_password self pw)
     = connection_string_safe self
  /\ to_dict_safe self !! "password" = Some (PStr (u "***"))
  /\ model_dump self !! "password" = Some (PStr (password self))
  /\ (forall key : string,
        key <> "password"%string ->
        to_dict_safe self !! key = model_dump self !! key).
Proof.
  assert (Hin : forall s : Settings,
            bool_decide (is_Some (model_dump s !! "password")) = true).
  { intros s. apply bool_decide_eq_true. by eexists. }
  unfold to_dict_safe. rewrite !Hin.
  split; [|split; [done|split; [done|split; [done|]]]].
  - apply map_eq. intros key.
    destruct (decide (key = "password"%string)) as [->|Hk]; [done|].
    rewrite !lookup_insert_ne by done.
    unfold model_dump, with_password. simpl.
    repeat (rewrite (lookup_insert (M := gmap string));
            case_decide; [first [done|by subst]|]).
    done.
  - intros key Hk. by rewrite lookup_insert_ne.
Qed.

End SettingsFacts.
